(** * swim-system-python: Recon utilities, Recon writer, connection pool,
      retry strategies and value downlink views

    A shallow embedding of the Python sources

      - [swimai/recon/utils.py]      ([ReconUtils], [OutputMessage], [InputMessage])
      - [swimai/recon/writers.py]    ([ReconWriter] and the writer classes)
      - [swimos/client/_connections.py] (retry strategies, [_ConnectionPool],
                                      [_WSConnection], [_DownlinkManagerPool])
      - [swimai/client/downlinks/downlinks.py] ([ValueDownlinkView.get] / [set])

    followed by the properties that the specification states about them.

    Conventions.  A Python [str] is a list of code points; a Python call
    that may raise returns a [result]; an object that is shared and mutated
    lives in a store and is named by its location; a Python [float] is a
    [spec_float], and [str] of it is CPython's [float.__repr__]. *)

From Stdlib Require Import ZArith NArith List Bool Lia Ascii String DecimalString.
From Stdlib Require Import SpecFloat QArith Qround Qpower Decimal DecimalPos.
From stdpp Require Import base option list gmap.

#[local] Set Warnings "-register-all".
Local Open Scope Z_scope.

(* ===================================================================== *)
(** * Python preliminaries *)
(* ===================================================================== *)

(** A Python [str]: a sequence of Unicode code points. *)
Definition str : Type := list N.

(** The [str] denoted by a string literal of the source. *)
Definition lit (s : string) : str := map N_of_ascii (list_ascii_of_string s).

(** The one-character [str] holding the double quote. *)
Definition dquote : str := [34%N].

(** [ord('c')] for a character literal of the source. *)
Definition ord (c : ascii) : Z := Z.of_N (N_of_ascii c).

(** The exceptions the embedded code raises. *)
Inductive exn : Type :=
| TypeError
| AttributeError
| IndexError
| RuntimeError
| OSError.              (* a failed [websockets.connect] *)

(** The outcome of a Python call: a returned value or a raised exception. *)
Inductive result (A : Type) : Type :=
| Ok (a : A)
| Raise (e : exn).
Arguments Ok {A} a.
Arguments Raise {A} e.

#[global] Instance result_ret : MRet result := fun _ a => Ok a.
#[global] Instance result_bind : MBind result := fun _ _ f m =>
  match m with
  | Ok a => f a
  | Raise e => Raise e
  end.
#[global] Instance result_fmap : FMap result := fun _ _ f m =>
  match m with
  | Ok a => Ok (f a)
  | Raise e => Raise e
  end.

(** The Python objects that reach the character classifiers.  [bool] is a
    subclass of [int]; a [float], [None] and a list are neither [str] nor
    [int]. *)
Inductive PyObj : Type :=
| PyStr (s : str)
| PyInt (z : Z)
| PyBool (b : bool)
| PyFloat (f : spec_float)
| PyNone
| PyList (xs : list PyObj).

(** Zero test of a float: [+0.0] and [-0.0] are the floats equal to [0.0]. *)
Definition float_is_zero (f : spec_float) : bool :=
  match f with
  | S754_zero _ => true
  | _ => false
  end.

(** Truth value of an object, as [if obj:] tests it. *)
Definition truthy (o : PyObj) : bool :=
  match o with
  | PyStr s => negb (Nat.eqb (length s) 0)
  | PyInt z => negb (z =? 0)
  | PyBool b => b
  | PyFloat f => negb (float_is_zero f)
  | PyNone => false
  | PyList xs => negb (Nat.eqb (length xs) 0)
  end.

(** [isinstance(o, str)] and [isinstance(o, int)]. *)
Definition isinstance_str (o : PyObj) : bool :=
  match o with PyStr _ => true | _ => false end.
Definition isinstance_int (o : PyObj) : bool :=
  match o with PyInt _ | PyBool _ => true | _ => false end.

(** [a <= x] where [x] is an [int] or [None]: ordering [None] against an
    [int] raises [TypeError]. *)
Definition py_le_l (a : Z) (x : option Z) : result bool :=
  match x with
  | Some z => Ok (a <=? z)
  | None => Raise TypeError
  end.
Definition py_le_r (x : option Z) (b : Z) : result bool :=
  match x with
  | Some z => Ok (z <=? b)
  | None => Raise TypeError
  end.

(** The chained comparison [a <= x <= b], evaluated left to right with the
    short circuit of [and]. *)
Definition py_between (a : Z) (x : option Z) (b : Z) : result bool :=
  l ← py_le_l a x;
  if l : bool then py_le_r x b else Ok false.

(** [x == a] where [x] is an [int] or [None]: never raises. *)
Definition py_eq (x : option Z) (a : Z) : bool :=
  match x with
  | Some z => z =? a
  | None => false
  end.

(** An [Optional[int]] passed on as an argument. *)
Definition of_ord (x : option Z) : PyObj :=
  match x with
  | Some z => PyInt z
  | None => PyNone
  end.

(** [s[i]] on a [str], with Python's negative indices and [IndexError]. *)
Definition str_getitem (s : str) (i : Z) : result str :=
  let n := Z.of_nat (length s) in
  let j := if i <? 0 then i + n else i in
  if (0 <=? j) && (j <? n)
  then match nth_error s (Z.to_nat j) with
       | Some c => Ok [c]
       | None => Raise IndexError
       end
  else Raise IndexError.

(** [str(z)] for an [int]. *)
Definition str_int (z : Z) : str := lit (NilZero.string_of_int (Z.to_int z)).

(** [str(f)] for a [float] is the interpreter's shortest round-trip
    representation; it is not code of the repository and is a parameter of
    the writer.  [python_float_str] below is the one of CPython. *)
Class FloatStr : Type := str_float : spec_float -> str.

(** ** [str] on a float

    [str(f)] is [float.__repr__], which CPython computes with
    [_Py_dg_dtoa] in mode 0 (the shortest decimal that reads back as the
    float) and [format_float_short] with the format code ['r']. *)

Module FloatRepr.

(** The number [m * 2 ^ e]: the value of the finite float with mantissa
    [m] and exponent [e]. *)
Definition float_value (m e : Z) : Q := inject_Z m * 2 ^ e.

(** The number [d * 10 ^ k]: the decimal with digits [d] and exponent [k]. *)
Definition decimal (d k : Z) : Q := inject_Z d * 10 ^ k.

(** A binary64 has 53 bits of mantissa and its least exponent is -1074. *)
Definition mantissa_bits : Z := 53.
Definition least_exponent : Z := -1074.

(** The mantissa and exponent of a binary64 as the format holds them: the
    mantissa has 53 bits unless the exponent is the least one. *)
Definition canonical (m : positive) (e : Z) : Z * Z :=
  let shift := Z.min (mantissa_bits - (Z.log2 (Zpos m) + 1)) (e - least_exponent) in
  if 0 <? shift then (Zpos m * 2 ^ shift, e - shift) else (Zpos m, e).

(** The decimals that read back as a float are those of its rounding
    interval: from half way to the float below to half way to the float
    above.  The float below is half as far when the mantissa is the least
    of its binade.  The ends belong to the interval when the mantissa is
    even (ties go to even). *)
Definition below (M E : Z) : Q :=
  if (M =? 2 ^ (mantissa_bits - 1)) && (least_exponent <? E)
  then float_value (4 * M - 1) (E - 2)
  else float_value (4 * M - 2) (E - 2).
Definition above (M E : Z) : Q := float_value (4 * M + 2) (E - 2).

Definition Qlt_bool (x y : Q) : bool := negb (Qle_bool y x).

Definition inside (M E : Z) (q : Q) : bool :=
  if Z.even M
  then Qle_bool (below M E) q && Qle_bool q (above M E)
  else Qlt_bool (below M E) q && Qlt_bool q (above M E).

(** The decimal exponent of a positive rational: the [p] with
    [10 ^ p <= q < 10 ^ (p + 1)]. *)
Definition decimal_exponent (q : Q) : Z :=
  let p := Z.of_nat (length (str_int (Qnum q)))
           - Z.of_nat (length (str_int (Zpos (Qden q)))) in
  if Qle_bool (10 ^ p) q then p else p - 1.

(** The decimal of [n] digits that [_Py_dg_dtoa] in mode 0 stops at, if
    there is one: of the two decimals of [n] digits around the float,
    one that reads back as the float; the nearer one when both do, and
    the one with the even last digit when they are as near. *)
Definition candidate (M E : Z) (n : Z) : option (Z * Z) :=
  let v := float_value M E in
  let k := decimal_exponent v - (n - 1) in
  let x := (v * 10 ^ (- k))%Q in
  let lo := Qfloor x in
  let hi := lo + 1 in
  let lo_ok := inside M E (decimal lo k) in
  let hi_ok := inside M E (decimal hi k) in
  let up :=
    match (x - inject_Z lo ?= 1 # 2)%Q with
    | Lt => false
    | Gt => true
    | Eq => Z.odd lo
    end in
  if lo_ok && hi_ok then Some (if up then hi else lo, k)
  else if lo_ok then Some (lo, k)
  else if hi_ok then Some (hi, k)
  else None.

(** The decimal expansion of a float, all its digits. *)
Definition exact_decimal (M E : Z) : Z * Z :=
  if 0 <=? E then (M * 2 ^ E, 0) else (M * 5 ^ (- E), E).

(** The shortest decimal that reads back as the float: the first
    candidate, by number of digits.  Seventeen digits are enough for every
    binary64; the whole expansion stands for a [spec_float] that is none. *)
Fixpoint shortest_from (M E : Z) (n : Z) (fuel : nat) : Z * Z :=
  match fuel with
  | O => exact_decimal M E
  | S fuel =>
      match candidate M E n with
      | Some (d, k) => if d =? 10 ^ n then (1, k + n) else (d, k)
      | None => shortest_from M E (n + 1) fuel
      end
  end.

Definition shortest (m : positive) (e : Z) : Z * Z :=
  let '(M, E) := canonical m e in shortest_from M E 1 17.

(** [n] zeros. *)
Definition zeros (n : Z) : str := repeat 48%N (Z.to_nat n).

(** The exponent of the scientific notation, as ["%+.02d"] prints it. *)
Definition exponent_text (x : Z) : str :=
  (if x <? 0 then lit "-" else lit "+")
  ++ (if Z.abs x <? 10 then lit "0" else []) ++ str_int (Z.abs x).

(** A decimal numeral: the digits before the point, the digits after it
    (none when there is no point) and the exponent after [e], if any. *)
Record Numeral : Type := mkNumeral {
  int_part : str;
  frac_part : str;
  exponent : option Z
}.

(** [format_float_short] for the format code ['r'], on the digits of the
    decimal and the position [decpt] of its point: scientific notation
    when [decpt <= -4 || decpt > 16], with the point after the first digit
    when more digits follow; otherwise positional notation, padded with
    zeros up to the point and with [.0] added to an integer. *)
Definition layout (d k : Z) : Numeral :=
  let digits := str_int d in
  let n := Z.of_nat (length digits) in
  let decpt := k + n in
  if (decpt <=? -4) || (16 <? decpt) then
    mkNumeral (take 1 digits) (drop 1 digits) (Some (decpt - 1))
  else if decpt <=? 0 then mkNumeral (lit "0") (zeros (- decpt) ++ digits) None
  else if decpt <? n then
    mkNumeral (take (Z.to_nat decpt) digits) (drop (Z.to_nat decpt) digits) None
  else mkNumeral (digits ++ zeros (decpt - n)) (lit "0") None.

(** The text of a numeral. *)
Definition render (x : Numeral) : str :=
  int_part x
  ++ match frac_part x with [] => [] | _ => lit "." ++ frac_part x end
  ++ match exponent x with
     | Some e => lit "e" ++ exponent_text e
     | None => []
     end.


(** [float.__repr__], which is [str] of a float. *)
Definition float_repr (f : spec_float) : str :=
  match f with
  | S754_zero s => if s then lit "-0.0" else lit "0.0"
  | S754_infinity s => if s then lit "-inf" else lit "inf"
  | S754_nan => lit "nan"
  | S754_finite s m e =>
      (if s then lit "-" else [])
      ++ let '(d, k) := shortest m e in render (layout d k)
  end.



End FloatRepr.



(* ===================================================================== *)
(** * swimai/recon/utils.py *)
(* ===================================================================== *)

Module ReconUtils.

(** [ReconUtils.to_ord] *)
Definition to_ord (char : PyObj) : result (option Z) :=
  match char with
  | PyStr s =>
      (* [ord] wants a string of length one *)
      match s with
      | [c] => Ok (Some (Z.of_N c))
      | _ => Raise TypeError
      end
  | PyInt z => Ok (Some z)
  | PyBool b => Ok (Some (Z.b2z b))
  | _ => Ok None
  end.

(** [ReconUtils.is_ident_start_char] *)
Definition is_ident_start_char (char : PyObj) : result bool :=
  if truthy char then
    char ← to_ord char;
    upper ← py_between (ord "A") char (ord "Z");
    if upper : bool then Ok true
    else if py_eq char (ord "_") then Ok true
    else py_between (ord "a") char (ord "z")
  else Ok false.

(** [ReconUtils.is_digit] *)
Definition is_digit (char : PyObj) : result bool :=
  if truthy char then
    char ← to_ord char;
    py_between (ord "0") char (ord "9")
  else Ok false.

(** [ReconUtils.is_ident_char] *)
Definition is_ident_char (char : PyObj) : result bool :=
  if truthy char then
    char ← to_ord char;
    if py_eq char (ord "-") then Ok true
    else
      digit ← is_digit (of_ord char);
      if digit : bool then Ok true
      else is_ident_start_char (of_ord char)
  else Ok false.

(** [ReconUtils.is_space] *)
Definition is_space (char : PyObj) : result bool :=
  if truthy char then
    char ← to_ord char;
    Ok (py_eq char (ord " ") || py_eq char 9 (* ord('\t') *))
  else Ok false.

(** The loop [for char in value] of [is_ident]. *)
Fixpoint is_ident_loop (chars : str) : result bool :=
  match chars with
  | [] => Ok true
  | char :: rest =>
      ok ← is_ident_char (PyStr [char]);
      if ok : bool then is_ident_loop rest else Ok false
  end.

(** [ReconUtils.is_ident] *)
Definition is_ident (value : str) : result bool :=
  match value with
  | [] => Ok false                         (* len(value) == 0 *)
  | first :: _ =>
      start ← is_ident_start_char (PyStr [first]);   (* value[0] *)
      if start : bool then is_ident_loop value else Ok false
  end.

End ReconUtils.

(** [OutputMessage] *)
Module OutputMessage.

Record t : Type := mk { message : str }.

Definition value (self : t) : str := message self.
Definition size (self : t) : Z := Z.of_nat (length (message self)).

Definition last_char (self : t) : str :=
  if 0 <? size self then
    match last (message self) with
    | Some c => [c]
    | None => []
    end
  else [].

(** [append] on a [str], on a number and on another [OutputMessage]. *)
Definition append (self : t) (obj : str) : t := mk (message self ++ obj).
Definition append_message (self : t) (obj : t) : t :=
  mk (message self ++ value obj).

(** [OutputMessage.create(chars)] *)
Definition create (chars : option str) : t :=
  let instance := mk [] in
  match chars with
  | Some c => if truthy (PyStr c) then append instance c else instance
  | None => instance
  end.

End OutputMessage.

(** [InputMessage] *)
Module InputMessage.

Record t : Type := mk { message : str; index : Z }.

(** [InputMessage(message)] *)
Definition create (message : str) : t := mk message 0.

(** [is_cont] *)
Definition is_cont (self : t) : bool :=
  if index self >=? Z.of_nat (length (message self)) then false else true.

(** [head] *)
Definition head (self : t) : result str :=
  if is_cont self then str_getitem (message self) (index self) else Ok [].

(** [step]: the updated cursor and what the call returns. *)
Definition step (self : t) : t * result str :=
  let self := mk (message self) (index self + 1) in
  (self, head self).

End InputMessage.

(* ===================================================================== *)
(** * swimai/structures *)
(* ===================================================================== *)

(** A number held by [Num]: a Python [int] or [float]. *)
Inductive PyNum : Type :=
| NumInt (z : Z)
| NumFloat (f : spec_float).

(** Modelled from the spec: [swimai/structures/structs.py] is missing (only
    the package's [__init__.py] with the class names is there).  A Value is
    a Record, Text, Num, Bool, Extant or Absent; an Item is a Value or a
    Field; a Field is [Attr(key, value)] or [Slot(key, value)]; a Record is
    an ordered sequence of Items. *)
Inductive Value : Type :=
| Record (items : list Item)
| Text (value : str)
| Num (value : PyNum)
| Bool (value : bool)
| Extant
| Absent
with Item : Type :=
| ItemValue (v : Value)
| Attr (key : Value) (value : Value)
| Slot (key : Value) (value : Value).

Module Structs.

(** Modelled from the spec: [size] is the item count; a Value that is not
    a Record holds no items ([test_parse_literal_empty_existing_builder]
    reads [size] 0 off a Text). *)
Definition size (v : Value) : Z :=
  match v with
  | Record items => Z.of_nat (length items)
  | _ => 0
  end.

(** [record.get_items()] *)
Definition get_items (items : list Item) : list Item := items.

(** [value != Extant.get_extant()]: [Extant] is a singleton. *)
Definition is_extant (v : Value) : bool :=
  match v with Extant => true | _ => false end.

(** [isinstance(item, Record)] *)
Definition is_record (v : Value) : bool :=
  match v with Record _ => true | _ => false end.

(** Truth value of a number. *)
Definition num_truthy (n : PyNum) : bool :=
  match n with
  | NumInt z => negb (z =? 0)
  | NumFloat f => negb (float_is_zero f)
  end.

End Structs.

(* ===================================================================== *)
(** * swimai/recon/writers.py *)
(* ===================================================================== *)

Module Writers.
Section Writers.

Context {float_str : FloatStr}.

(** [OutputMessage.append] on an [int] or a [float]: [str(obj)]. *)
Definition append_num (self : OutputMessage.t) (obj : PyNum) : OutputMessage.t :=
  match obj with
  | NumInt z => OutputMessage.append self (str_int z)
  | NumFloat f => OutputMessage.append self (str_float f)
  end.

(** [StringWriter.write] *)
Definition StringWriter_write (value : str) : OutputMessage.t :=
  let output := OutputMessage.create (Some dquote) in
  let output := if truthy (PyStr value) then OutputMessage.append output value
                else output in
  OutputMessage.append output dquote.

(** [NumberWriter.write] *)
Definition NumberWriter_write (value : PyNum) : OutputMessage.t :=
  let output := OutputMessage.create None in
  if Structs.num_truthy value then append_num output value else output.

(** [BoolWriter.write] *)
Definition BoolWriter_write (value : bool) : OutputMessage.t :=
  if value then OutputMessage.create (Some (lit "true"))
  else OutputMessage.create (Some (lit "false")).

(** [IdentWriter.write] *)
Definition IdentWriter_write (value : str) : OutputMessage.t :=
  let output := OutputMessage.create None in
  if truthy (PyStr value) then OutputMessage.append output value else output.

(** [ReconWriter.write_text] *)
Definition write_text (value : str) : result OutputMessage.t :=
  ident ← ReconUtils.is_ident value;
  if ident : bool then Ok (IdentWriter_write value)
  else Ok (StringWriter_write value).

(** [ReconWriter.write_number], [write_bool], [write_absent] *)
Definition write_number (value : PyNum) : OutputMessage.t :=
  NumberWriter_write value.
Definition write_bool (value : bool) : OutputMessage.t :=
  BoolWriter_write value.
Definition write_absent : OutputMessage.t := OutputMessage.create None.

(** [if text: output.append(text)] where [text] is an [OutputMessage] or
    [None]: [OutputMessage] defines neither [__bool__] nor [__len__], so
    every instance is true. *)
Definition append_if (output : OutputMessage.t) (text : option OutputMessage.t)
  : OutputMessage.t :=
  match text with
  | Some t => OutputMessage.append_message output t
  | None => output
  end.

Section WithWriter.

(** The [writer] argument of the writer classes: its [write_value] and
    [write_item]. *)
Variable write_value : Value -> result (option OutputMessage.t).
Variable write_item : Item -> result str.

(** [AttrWriter.write] *)
Definition AttrWriter_write (key value : Value) : result OutputMessage.t :=
  let output := OutputMessage.create (Some (lit "@")) in
  key_text ← write_value key;
  let output := append_if output key_text in
  if negb (Structs.is_extant value) then
    let output := OutputMessage.append output (lit "(") in
    value_text ← write_value value;
    if Structs.size value =? 0 then Ok output
    else
      let output := append_if output value_text in
      Ok (OutputMessage.append output (lit ")"))
  else Ok output.

(** [SlotWriter.write] *)
Definition SlotWriter_write (key value : Value) : result OutputMessage.t :=
  let output := OutputMessage.create None in
  key_text ← write_value key;
  let output := append_if output key_text in
  let output := OutputMessage.append output (lit ":") in
  value_text ← write_value value;
  Ok (append_if output value_text).

(** The body of the loop [for item in items] of [BlockWriter.write], with
    the loop's variables [output], [first] and [in_braces]. *)
Fixpoint BlockWriter_loop (items : list Item) (output : OutputMessage.t)
    (first in_braces : bool) {struct items} : result OutputMessage.t :=
  match items with
  | [] =>
      if in_braces then Ok (OutputMessage.append output (lit "}"))
      else Ok output
  | item :: rest =>
      let inline :=
        match item with
        | Attr _ _ => true
        | ItemValue v => negb (Structs.is_record v)
        | Slot _ _ => false
        end in
      if inline then
        item_text ← write_item item;
        let output := if truthy (PyStr item_text)
                      then OutputMessage.append output item_text else output in
        BlockWriter_loop rest output first in_braces
      else
        let '(output, in_braces) :=
          if negb first then (OutputMessage.append output (lit ","), in_braces)
          else
            match item with
            | Slot _ _ =>
                if (0 <? OutputMessage.size output)
                   && negb (bool_decide (OutputMessage.last_char output = lit "("))
                then (OutputMessage.append output (lit "{"), true)
                else (output, in_braces)
            | _ => (output, in_braces)
            end in
        item_text ← write_item item;
        let output := if truthy (PyStr item_text)
                      then OutputMessage.append output item_text else output in
        BlockWriter_loop rest output false in_braces
  end.

(** [BlockWriter.write] *)
Definition BlockWriter_write (items : list Item) (first in_braces : bool)
  : result OutputMessage.t :=
  BlockWriter_loop items (OutputMessage.create None) first in_braces.

End WithWriter.

(** [ReconWriter.write_value] and [ReconWriter.write_item], with
    [write_record], [write_attr] and [write_slot] in place.  [write_value]
    returns [None] where the Python method falls off its end. *)
Fixpoint write_value (value : Value) : result (option OutputMessage.t) :=
  match value with
  | Record items =>
      (* write_record: [record.size > 0] *)
      if 0 <? Z.of_nat (length items)
      then Some <$> BlockWriter_write write_item (Structs.get_items items) true false
      else Ok None
  | Text s => Some <$> write_text s
  | Num n => Ok (Some (write_number n))
  | Bool b => Ok (Some (write_bool b))
  | Absent => Ok (Some write_absent)
  | Extant => Ok None
  end
with write_item (item : Item) : result str :=
  match item with
  | Attr key value =>
      output ← AttrWriter_write write_value key value;
      Ok (OutputMessage.message output)
  | Slot key value =>
      output ← SlotWriter_write write_value key value;
      Ok (OutputMessage.message output)
  | ItemValue v =>
      output ← write_value v;
      match output with
      | Some o => Ok (OutputMessage.message o)
      | None => Raise AttributeError     (* None has no [message] *)
      end
  end.

(** [ReconWriter.write_record] on the items of the record, [write_attr]
    and [write_slot]. *)
Definition write_record (items : list Item) : result (option OutputMessage.t) :=
  if 0 <? Z.of_nat (length items)
  then Some <$> BlockWriter_write write_item (Structs.get_items items) true false
  else Ok None.
Definition write_attr (key value : Value) : result OutputMessage.t :=
  AttrWriter_write write_value key value.
Definition write_slot (key value : Value) : result OutputMessage.t :=
  SlotWriter_write write_value key value.

End Writers.
End Writers.

(* ===================================================================== *)
(** * swimos/client/_connections.py *)
(* ===================================================================== *)

Module Connections.

(** A location of the store: the identity of a Python object. *)
Definition loc : Type := nat.

(** ** Retry strategies *)

(** [RetryStrategy] and its subclasses [IntervalStrategy] and
    [ExponentialStrategy], each with its attributes. *)
Inductive RetryStrategy : Type :=
| BaseStrategy
| IntervalStrategy (retries_limit : option Z) (delay : Z) (retries : Z)
| ExponentialStrategy (retries_limit : option Z) (max_interval : Z) (retries : Z).

(** The constructors, with their default arguments spelled out by the
    caller: [retries] starts at 0. *)
Definition IntervalStrategy_init (retries_limit : option Z) (delay : Z) :=
  IntervalStrategy retries_limit delay 0.
Definition ExponentialStrategy_init (retries_limit : option Z) (max_interval : Z) :=
  ExponentialStrategy retries_limit max_interval 0.

(** What a call of [retry] does: the value returned, the strategy after
    the call, and the arguments of the [asyncio.sleep] calls it made. *)
Record Retried : Type := mkRetried {
  returned : bool;
  after : RetryStrategy;
  sleeps : list Z
}.

(** [retry] *)
Definition retry (self : RetryStrategy) : Retried :=
  match self with
  | BaseStrategy => mkRetried false self []
  | IntervalStrategy retries_limit delay retries =>
      if match retries_limit with
         | None => true
         | Some limit => limit >? retries
         end
      then mkRetried true (IntervalStrategy retries_limit delay (retries + 1)) [delay]
      else mkRetried false self []
  | ExponentialStrategy retries_limit max_interval retries =>
      if match retries_limit with
         | None => true
         | Some limit => limit >=? retries
         end
      then mkRetried true (ExponentialStrategy retries_limit max_interval (retries + 1))
                     [Z.min (2 ^ retries) max_interval]
      else mkRetried false self []
  end.

(** [reset] *)
Definition reset (self : RetryStrategy) : RetryStrategy :=
  match self with
  | BaseStrategy => BaseStrategy
  | IntervalStrategy retries_limit delay _ => IntervalStrategy retries_limit delay 0
  | ExponentialStrategy retries_limit max_interval _ =>
      ExponentialStrategy retries_limit max_interval 0
  end.

(** The number of completed retries of a strategy. *)
Definition retries_of (self : RetryStrategy) : Z :=
  match self with
  | BaseStrategy => 0
  | IntervalStrategy _ _ retries | ExponentialStrategy _ _ retries => retries
  end.

(** ** Connections, managers and views *)

Module _ConnectionStatus.
Inductive t : Type := CLOSED | CONNECTING | IDLE | RUNNING.
#[global] Instance eq_dec : EqDecision t.
Proof. solve_decision. Defined.
End _ConnectionStatus.

Module _DownlinkManagerStatus.
Inductive t : Type := CLOSED | OPENING | OPEN.
#[global] Instance eq_dec : EqDecision t.
Proof. solve_decision. Defined.
End _DownlinkManagerStatus.

(** The kind of a downlink. *)
Inductive Kind : Type := EventKind | ValueKind | MapKind.

(** What is sent over a socket: a text frame, or the Recon text of a
    [sync] or [link] envelope for a node and lane. *)
Inductive Frame : Type :=
| TextFrame (message : str)
| SyncFrame (node_uri lane_uri : str)
| LinkFrame (node_uri lane_uri : str).

(** The socket that [websockets.connect] returns. *)
Record WebSocket : Type := mkWebSocket {
  ws_uri : str;
  ws_ssl : bool;
  ws_sent : list Frame
}.

(** Modelled from the spec: the view class [_DownlinkView] of
    [swimos/client/_downlinks/_downlinks.py] is missing.  These are the
    attributes that [_connections.py] reads from a view or assigns to it;
    the route is [node_uri + "/" + lane_uri]. *)
Record _DownlinkView : Type := mkView {
  _host_uri : str;
  _scheme : str;
  _keep_linked : bool;
  _keep_synced : bool;
  _node_uri : str;
  _lane_uri : str;
  _kind : Kind;
  _connection : option loc;
  _did_open : nat          (* how often [_execute_did_open] ran *)
}.

Definition route (view : _DownlinkView) : str :=
  _node_uri view ++ lit "/" ++ _lane_uri view.

(** Modelled from the spec: the model class [_DownlinkModel] of the same
    missing file; the model's kind is that of the view that creates it. *)
Record _DownlinkModel : Type := mkModel {
  model_kind : Kind;
  model_node_uri : str;
  model_lane_uri : str;
  model_connection : option loc
}.

(** [_DownlinkManager]; [__downlink_views] maps [hash(view)], the identity
    of the view, to the view.  The attributes [registered_classes] and
    [strict], which no method of this file reads, are left out. *)
Record _DownlinkManager : Type := mkManager {
  connection : option loc;
  manager_status : _DownlinkManagerStatus.t;
  downlink_model : option _DownlinkModel;
  downlink_views : gmap loc loc
}.

(** [_WSConnection]; [subscribers] is the dictionary of its
    [_DownlinkManagerPool], from route to manager.  [retry_strategy] is the
    strategy object of the pool that made the connection: it is shared,
    and kept in the [World]. *)
Record _WSConnection : Type := mkConnection {
  host_uri : str;
  scheme : str;
  connected : bool;
  websocket : option WebSocket;
  status : _ConnectionStatus.t;
  auth_message : option str;
  init_message : option str;
  keep_linked : bool;
  keep_synced : bool;
  subscribers : gmap str _DownlinkManager;
  authenticated : bool
}.

(** [_WSConnection.__init__] *)
Definition _WSConnection_init (host_uri scheme : str) (keep_linked keep_synced : bool)
  : _WSConnection :=
  {| host_uri := host_uri; scheme := scheme;
     connected := false; websocket := None;
     status := _ConnectionStatus.CLOSED;
     auth_message := None; init_message := None;
     keep_linked := keep_linked; keep_synced := keep_synced;
     subscribers := ∅; authenticated := false |}.

(** Attribute assignments on a connection. *)
Definition set_status (s : _ConnectionStatus.t) (c : _WSConnection) : _WSConnection :=
  {| host_uri := host_uri c; scheme := scheme c; connected := connected c;
     websocket := websocket c; status := s;
     auth_message := auth_message c; init_message := init_message c;
     keep_linked := keep_linked c; keep_synced := keep_synced c;
     subscribers := subscribers c; authenticated := authenticated c |}.
Definition set_websocket (ws : option WebSocket) (c : _WSConnection) : _WSConnection :=
  {| host_uri := host_uri c; scheme := scheme c; connected := connected c;
     websocket := ws; status := status c;
     auth_message := auth_message c; init_message := init_message c;
     keep_linked := keep_linked c; keep_synced := keep_synced c;
     subscribers := subscribers c; authenticated := authenticated c |}.
Definition set_connected (b : bool) (c : _WSConnection) : _WSConnection :=
  {| host_uri := host_uri c; scheme := scheme c; connected := b;
     websocket := websocket c; status := status c;
     auth_message := auth_message c; init_message := init_message c;
     keep_linked := keep_linked c; keep_synced := keep_synced c;
     subscribers := subscribers c; authenticated := authenticated c |}.
Definition set_subscribers (m : gmap str _DownlinkManager) (c : _WSConnection)
  : _WSConnection :=
  {| host_uri := host_uri c; scheme := scheme c; connected := connected c;
     websocket := websocket c; status := status c;
     auth_message := auth_message c; init_message := init_message c;
     keep_linked := keep_linked c; keep_synced := keep_synced c;
     subscribers := m; authenticated := authenticated c |}.

(** [_WSConnection.should_reconnect] *)
Definition should_reconnect (self : _WSConnection) : bool :=
  keep_linked self || keep_synced self.

(** [_WSConnection._has_subscribers] *)
Definition _has_subscribers (self : _WSConnection) : bool :=
  0 <? Z.of_nat (size (subscribers self)).

(** ** The store and the environment *)

(** The objects that [_connections.py] shares and mutates, the pool, and
    the environment of the calls.  A new object is put at a location that
    the store does not use yet.  [handshakes] scripts the outcome of each
    coming [websockets.connect] ([true]: the handshake succeeds), [slept]
    logs the [asyncio.sleep] calls, [receive_loops] the connections whose
    [_wait_for_messages] was scheduled as a task. *)
Record World : Type := mkWorld {
  heap : gmap loc _WSConnection;
  views : gmap loc _DownlinkView;
  connections : gmap str loc;          (* [_ConnectionPool.__connections] *)
  retry_strategy : RetryStrategy;      (* [_ConnectionPool.retry_strategy] *)
  handshakes : list bool;
  slept : list Z;
  receive_loops : list loc
}.

Definition set_heap (h : gmap loc _WSConnection) (w : World) : World :=
  mkWorld h (views w) (connections w) (retry_strategy w)
          (handshakes w) (slept w) (receive_loops w).
Definition set_views (v : gmap loc _DownlinkView) (w : World) : World :=
  mkWorld (heap w) v (connections w) (retry_strategy w)
          (handshakes w) (slept w) (receive_loops w).

(** A call in a world: no outcome ([None]) when the call does not return
    in this sequential model (the handshake script is used up, the call
    waits for an event that nothing sets, or a location is dangling);
    otherwise its result and the world it leaves. *)
Definition M (A : Type) : Type := World -> option (result A * World).

Definition ret {A} (a : A) : M A := fun w => Some (Ok a, w).
Definition raise {A} (e : exn) : M A := fun w => Some (Raise e, w).
Definition stuck {A} : M A := fun _ => None.
Definition bind {A B} (m : M A) (k : A -> M B) : M B := fun w =>
  match m w with
  | Some (Ok a, w') => k a w'
  | Some (Raise e, w') => Some (Raise e, w')
  | None => None
  end.

Notation "'do' x <- m ; k" := (bind m (fun x => k))
  (at level 10, x name, m at level 100, k at level 200).
Notation "m ;; k" := (bind m (fun _ => k))
  (at level 100, k at level 200, right associativity).

Definition get_conn (l : loc) : M _WSConnection := fun w =>
  match heap w !! l with
  | Some c => Some (Ok c, w)
  | None => None
  end.
Definition put_conn (l : loc) (c : _WSConnection) : M unit := fun w =>
  Some (Ok tt, set_heap (<[l := c]> (heap w)) w).
Definition get_view (v : loc) : M _DownlinkView := fun w =>
  match views w !! v with
  | Some view => Some (Ok view, w)
  | None => None
  end.
Definition put_view (v : loc) (view : _DownlinkView) : M unit := fun w =>
  Some (Ok tt, set_views (<[v := view]> (views w)) w).
Definition when (b : bool) (m : M unit) : M unit := if b then m else ret tt.

(** ** [_ConnectionPool] *)

(** [_ConnectionPool._get_connection]: the location of the connection it
    returns, and the world after the call. *)
Definition _get_connection (host_uri scheme : str) (keep_linked keep_synced : bool)
  : M loc := fun w =>
  let fresh :=
    let connection := _WSConnection_init host_uri scheme keep_linked keep_synced in
    let l := fresh (dom (heap w)) in
    Some (Ok l, mkWorld (<[l := connection]> (heap w)) (views w)
                        (<[host_uri := l]> (connections w)) (retry_strategy w)
                        (handshakes w) (slept w) (receive_loops w)) in
  match connections w !! host_uri with
  | None => fresh
  | Some l =>
      match heap w !! l with
      | None => None
      | Some connection =>
          if bool_decide (status connection = _ConnectionStatus.CLOSED)
          then fresh
          else Some (Ok l, w)
      end
  end.

(** ** [_WSConnection] *)

(** What the loop of [_open] leaves: the result, the connection, the
    strategy, the sleeps logged and the rest of the handshake script. *)
Record Opened : Type := mkOpened {
  open_result : result unit;
  open_connection : _WSConnection;
  open_strategy : RetryStrategy;
  open_slept : list Z;
  open_handshakes : list bool
}.

(** The loop [while self.status == _ConnectionStatus.CONNECTING] of
    [_open]; each turn takes the outcome of its [websockets.connect] from
    the script. *)
Fixpoint _open_loop (script : list bool) (self : _WSConnection)
    (strategy : RetryStrategy) (log : list Z) {struct script} : option Opened :=
  if bool_decide (status self = _ConnectionStatus.CONNECTING) then
    match script with
    | [] => None
    | true :: script =>
        let ssl := bool_decide (scheme self = lit "wss") in
        let self := set_websocket (Some (mkWebSocket (host_uri self) ssl [])) self in
        let strategy := reset strategy in
        let self := set_status _ConnectionStatus.IDLE self in
        _open_loop script self strategy log
    | false :: script =>
        if should_reconnect self then
          let r := retry strategy in
          if returned r
          then _open_loop script self (after r) (log ++ sleeps r)
          else Some (mkOpened (Raise OSError)
                              (set_status _ConnectionStatus.CLOSED self)
                              (after r) (log ++ sleeps r) script)
        else Some (mkOpened (Raise OSError)
                            (set_status _ConnectionStatus.CLOSED self)
                            strategy log script)
    end
  else Some (mkOpened (Ok tt) self strategy log script).

(** [_WSConnection._open] *)
Definition _open (l : loc) : M unit := fun w =>
  match heap w !! l with
  | None => None
  | Some self =>
      if bool_decide (status self = _ConnectionStatus.CLOSED) then
        let self := set_status _ConnectionStatus.CONNECTING self in
        match _open_loop (handshakes w) self (retry_strategy w) (slept w) with
        | None => None
        | Some o =>
            let leave (c : _WSConnection) :=
              mkWorld (<[l := c]> (heap w)) (views w) (connections w)
                      (open_strategy o) (open_handshakes o) (open_slept o)
                      (receive_loops w) in
            match open_result o with
            | Ok _ => Some (Ok tt, leave (set_connected true (open_connection o)))
            | Raise e => Some (Raise e, leave (open_connection o))
            end
        end
      else Some (Ok tt, w)
  end.

(** [_WSConnection._send_message]; [connected.wait()] returns at once when
    the event is set and otherwise waits. *)
Definition _send_message (l : loc) (message : Frame) : M unit :=
  do self <- get_conn l;
  when (bool_decide (websocket self = None)
        || bool_decide (status self = _ConnectionStatus.CLOSED)) (_open l);;
  do self <- get_conn l;
  if connected self then
    match websocket self with
    | Some ws =>
        put_conn l (set_websocket
                      (Some (mkWebSocket (ws_uri ws) (ws_ssl ws) (ws_sent ws ++ [message])))
                      self)
    | None => raise AttributeError
    end
  else stuck.

(** ** [_DownlinkManager] and [_DownlinkManagerPool] *)

(** [_DownlinkManager.__init__] *)
Definition _DownlinkManager_init (connection : option loc) : _DownlinkManager :=
  mkManager connection _DownlinkManagerStatus.CLOSED None ∅.

(** [_DownlinkManager._view_count] *)
Definition _view_count (self : _DownlinkManager) : Z :=
  Z.of_nat (size (downlink_views self)).

(** [hash(view)]: the default hash of an object goes by its identity. *)
Definition hash (v : loc) : loc := v.

(** The manager at a route of the pool of a connection, read and written
    in place. *)
Definition get_manager (l : loc) (r : str) : M _DownlinkManager :=
  do self <- get_conn l;
  match subscribers self !! r with
  | Some manager => ret manager
  | None => stuck
  end.
Definition put_manager (l : loc) (r : str) (manager : _DownlinkManager) : M unit :=
  do self <- get_conn l;
  put_conn l (set_subscribers (<[r := manager]> (subscribers self)) self).

(** Modelled from the spec: [_DownlinkView._create_downlink_model] of the
    missing [_downlinks.py]; the model takes the kind, node and lane of the
    view. *)
Definition _create_downlink_model (view : _DownlinkView) : _DownlinkModel :=
  mkModel (_kind view) (_node_uri view) (_lane_uri view) None.

(** Modelled from the spec: [_DownlinkModel._open] of the missing
    [_downlinks.py] starts the receive loop of the model's connection as a
    task. *)
Definition model_open (model : _DownlinkModel) : M unit := fun w =>
  match model_connection model with
  | Some c =>
      Some (Ok tt, mkWorld (heap w) (views w) (connections w)
                           (retry_strategy w) (handshakes w) (slept w)
                           (receive_loops w ++ [c]))
  | None => Some (Raise AttributeError, w)
  end.

(** Modelled from the spec: [_DownlinkModel._establish_downlink] of the
    missing [_downlinks.py] sends [sync(node, lane)] for a value or map
    downlink and [link(node, lane)] for an event downlink over the
    model's connection. *)
Definition _establish_downlink (model : _DownlinkModel) : M unit :=
  match model_connection model with
  | Some c =>
      _send_message c
        match model_kind model with
        | EventKind => LinkFrame (model_node_uri model) (model_lane_uri model)
        | ValueKind | MapKind => SyncFrame (model_node_uri model) (model_lane_uri model)
        end
  | None => raise AttributeError
  end.

(** [_DownlinkManager._init_downlink_model] *)
Definition _init_downlink_model (l : loc) (r : str) (view : _DownlinkView) : M unit :=
  do self <- get_manager l r;
  let model := _create_downlink_model view in
  let model := mkModel (model_kind model) (model_node_uri model)
                       (model_lane_uri model) (connection self) in
  put_manager l r (mkManager (connection self) (manager_status self)
                             (Some model) (downlink_views self)).

(** [_DownlinkManager._open] *)
Definition manager_open (l : loc) (r : str) : M unit :=
  do self <- get_manager l r;
  if bool_decide (manager_status self = _DownlinkManagerStatus.CLOSED) then
    put_manager l r (mkManager (connection self) _DownlinkManagerStatus.OPENING
                               (downlink_model self) (downlink_views self));;
    match downlink_model self with
    | None => raise AttributeError
    | Some model =>
        model_open model;;
        _establish_downlink model;;
        do self <- get_manager l r;
        put_manager l r (mkManager (connection self) _DownlinkManagerStatus.OPEN
                                   (downlink_model self) (downlink_views self))
    end
  else ret tt.

(** [_DownlinkManager._add_view] of the manager at route [r] of the
    connection [l].  [downlink_view._register_manager(self)] is a method
    of the missing view class; it records the manager in the view and
    touches neither the manager nor the connection. *)
Definition _add_view (l : loc) (r : str) (v : loc) : M unit :=
  do view <- get_view v;
  do self <- get_manager l r;
  when (bool_decide (downlink_model self = None)) (_init_downlink_model l r view);;
  do self <- get_manager l r;
  when (_view_count self =? 0) (manager_open l r);;
  do self <- get_manager l r;
  put_manager l r (mkManager (connection self) (manager_status self)
                             (downlink_model self)
                             (<[hash v := v]> (downlink_views self))).

(** [_DownlinkManagerPool._register_downlink_view] of the pool of the
    connection [l]. *)
Definition _register_downlink_view (l : loc) (v : loc) : M unit :=
  do view <- get_view v;
  do self <- get_conn l;
  match subscribers self !! route view with
  | None => put_manager l (route view) (_DownlinkManager_init (_connection view))
  | Some _ => ret tt
  end;;
  _add_view l (route view) v.

(** Modelled from the spec: [_DownlinkView._execute_did_open] of the
    missing [_downlinks.py] triggers the [did_open] callback of the view,
    once per call. *)
Definition _execute_did_open (v : loc) : M unit :=
  do view <- get_view v;
  put_view v (mkView (_host_uri view) (_scheme view) (_keep_linked view)
                     (_keep_synced view) (_node_uri view) (_lane_uri view)
                     (_kind view) (_connection view) (S (_did_open view))).

(** [_WSConnection._subscribe] *)
Definition _subscribe (l : loc) (v : loc) : M unit :=
  do self <- get_conn l;
  when (Z.of_nat (size (subscribers self)) =? 0) (_open l);;
  _register_downlink_view l v;;
  _execute_did_open v.

(** [_ConnectionPool._add_downlink_view] *)
Definition _add_downlink_view (v : loc) : M unit :=
  do view <- get_view v;
  do connection <- _get_connection (_host_uri view) (_scheme view)
                                   (_keep_linked view) (_keep_synced view);
  put_view v (mkView (_host_uri view) (_scheme view) (_keep_linked view)
                     (_keep_synced view) (_node_uri view) (_lane_uri view)
                     (_kind view) (Some connection) (_did_open view));;
  _subscribe connection v.

(** ** The subscribers of a connection *)

(** The views registered with the managers of a connection: its current
    subscribers. *)
Definition subscriber_views (w : World) (self : _WSConnection) : list _DownlinkView :=
  '(_, manager) ← map_to_list (subscribers self);
  '(_, v) ← map_to_list (downlink_views manager);
  option_list (views w !! v).

(** The logical OR of a flag over the current subscribers. *)
Definition any_subscriber (flag : _DownlinkView -> bool) (w : World)
    (self : _WSConnection) : bool :=
  existsb flag (subscriber_views w self).

(** A pool with no connection and no view, a strategy, and a script of
    handshake outcomes. *)
Definition empty_world (strategy : RetryStrategy) (script : list bool) : World :=
  mkWorld ∅ ∅ ∅ strategy script [] [].

(** A new view object in the store. *)
Definition new_view (view : _DownlinkView) : M loc := fun w =>
  let v := fresh (dom (views w)) in
  Some (Ok v, mkWorld (heap w) (<[v := view]> (views w)) (connections w)
                      (retry_strategy w) (handshakes w) (slept w) (receive_loops w)).

End Connections.

(* ===================================================================== *)
(** * swimai/client/downlinks/downlinks.py and swimai/client/swim_client.py *)
(* ===================================================================== *)

Module Downlinks.

Definition loc : Type := nat.

(** A [Future] returned by [schedule_task]: the position of its task in
    the queue of the event loop. *)
Definition Future : Type := nat.

(** Modelled from the spec: the envelope class [CommandMessage] of the
    missing [swimai/warp]; a [command] envelope carries a node, a lane and
    a body.  The URIs of a view are [None] until they are set. *)
Inductive Envelope : Type :=
| CommandMessage (node_uri lane_uri : option str) (body : PyObj).

(** A coroutine with its arguments, as handed to [schedule_task]. *)
Inductive Task : Type :=
| add_downlink_view (view : loc)
| remove_downlink_view (view : loc)
| send_message (view : loc) (message : Envelope)
| get_value (model : loc).

(** [SwimClient]: whether it has started, and the coroutines submitted to
    its event loop, in order. *)
Record SwimClient : Type := mkClient {
  has_started : bool;
  scheduled : list Task
}.

(** [ValueDownlinkModel] *)
Record ValueDownlinkModel : Type := mkModel {
  model_host_uri : option str;
  model_node_uri : option str;
  model_lane_uri : option str;
  model_connection : option loc;
  value : PyObj;
  linked : bool;
  synced : bool
}.

(** [ValueDownlinkView] *)
Record ValueDownlinkView : Type := mkView {
  host_uri : option str;
  node_uri : option str;
  lane_uri : option str;
  did_set_callback : option nat;
  is_open : bool;
  initialised : bool;
  model : option loc;
  connection : option loc
}.

(** What a call made from the user's thread does: it returns, it raises,
    or it blocks on the result of a future. *)
Inductive Outcome (A : Type) : Type :=
| Returns (a : A)
| Raises (e : exn)
| Awaits (future : Future).
Arguments Returns {A} a.
Arguments Raises {A} e.
Arguments Awaits {A} future.

Section Store.

(** The connection class of [swimai/client/connections.py] is missing;
    no method modelled here looks into a connection. *)
Variable Connection : Type.

(** The objects a view reaches: the client, the views, the models and
    the connections. *)
Record Store : Type := mkStore {
  client : SwimClient;
  view_objs : gmap loc ValueDownlinkView;
  model_objs : gmap loc ValueDownlinkModel;
  connection_objs : gmap loc Connection
}.

(** [after_started], the decorator of [schedule_task], is defined in the
    missing [swimai/client/utils.py]: what a decorated call does while
    the client has not started is a parameter. *)
Variable before_started : Store -> Outcome (option Future) * Store.

(** [SwimClient.schedule_task]: once the client has started, the
    coroutine is submitted to the loop and its future returned. *)
Definition schedule_task (task : Task) (st : Store)
  : Outcome (option Future) * Store :=
  if has_started (client st) then
    let future := length (scheduled (client st)) in
    (Returns (Some future),
     mkStore (mkClient (has_started (client st)) (scheduled (client st) ++ [task]))
             (view_objs st) (model_objs st) (connection_objs st))
  else before_started st.

(** [ValueDownlinkView.get]; a view that is not in the store has no
    attributes to read. *)
Definition get (self : loc) (wait_sync : bool) (st : Store) : Outcome PyObj * Store :=
  match view_objs st !! self with
  | None => (Raises AttributeError, st)
  | Some view =>
      if is_open view then
        if wait_sync then
          match model view with
          | None => (Raises AttributeError, st)       (* None has no [get_value] *)
          | Some m =>
              match schedule_task (get_value m) st with
              | (Returns (Some task), st) => (Awaits task, st)   (* task.result() *)
              | (Returns None, st) => (Raises AttributeError, st)
              | (Raises e, st) => (Raises e, st)
              | (Awaits f, st) => (Awaits f, st)
              end
          end
        else
          match model view with
          | None => (Raises AttributeError, st)       (* None has no [value] *)
          | Some m =>
              match model_objs st !! m with
              | Some model => (Returns (value model), st)
              | None => (Raises AttributeError, st)
              end
          end
      else (Raises RuntimeError, st)
  end.

(** [ValueDownlinkView.set] *)
Definition set (self : loc) (value : PyObj) (st : Store) : Outcome unit * Store :=
  match view_objs st !! self with
  | None => (Raises AttributeError, st)
  | Some view =>
      if is_open view then
        let message := CommandMessage (node_uri view) (lane_uri view) value in
        match schedule_task (send_message self message) st with
        | (Returns _, st) => (Returns tt, st)
        | (Raises e, st) => (Raises e, st)
        | (Awaits f, st) => (Awaits f, st)
        end
      else (Raises RuntimeError, st)
  end.

End Store.

Arguments mkStore {Connection}.
Arguments client {Connection}.
Arguments view_objs {Connection}.
Arguments model_objs {Connection}.
Arguments connection_objs {Connection}.
Arguments schedule_task {Connection}.
Arguments get {Connection}.
Arguments set {Connection}.

End Downlinks.

(* ===================================================================== *)
(** * What the specification says, in the terms of the embedding *)
(* ===================================================================== *)

Module Spec.

(** The character classes of identifiers: start [[A-Za-z_]], continue
    [[A-Za-z0-9_-]]. *)
Definition ident_start (c : N) : Prop :=
  ord "A" <= Z.of_N c <= ord "Z" \/ ord "a" <= Z.of_N c <= ord "z"
  \/ Z.of_N c = ord "_".
Definition ident_continue (c : N) : Prop :=
  ident_start c \/ ord "0" <= Z.of_N c <= ord "9" \/ Z.of_N c = ord "-".

(** A string is an identifier when it is not empty, its head is a start
    character and its tail holds continue characters only. *)
Definition ident (s : str) : Prop :=
  match s with
  | [] => False
  | head :: tail => ident_start head /\ Forall ident_continue tail
  end.

(** An input that is not a character: neither a [str] nor an [int]. *)
Definition not_a_character (o : PyObj) : Prop :=
  isinstance_str o = false /\ isinstance_int o = false.

(** The float [1.5]. *)
Definition float_1_5 : spec_float := S754_finite false 6755399441055744 (-52).

(** The calls on an input cursor, and a run of them in order: the cursor
    it leaves and what each call returned. *)
Inductive Call : Type := Head | Step.

Definition perform (c : Call) (self : InputMessage.t)
  : InputMessage.t * result str :=
  match c with
  | Head => (self, InputMessage.head self)
  | Step => InputMessage.step self
  end.

Fixpoint run (calls : list Call) (self : InputMessage.t)
  : InputMessage.t * list (result str) :=
  match calls with
  | [] => (self, [])
  | c :: calls =>
      let '(self, out) := perform c self in
      let '(self, outs) := run calls self in
      (self, out :: outs)
  end.

(** The character of a message at a position, the empty string when the
    position is not inside the message. *)
Definition char_at (message : str) (i : nat) : str :=
  match nth_error message i with
  | Some c => [c]
  | None => []
  end.

(** What the calls are to return when the cursor stands at position [i]. *)
Fixpoint returns (message : str) (i : nat) (calls : list Call) : list (result str) :=
  match calls with
  | [] => []
  | Head :: calls => Ok (char_at message i) :: returns message i calls
  | Step :: calls => Ok (char_at message (S i)) :: returns message (S i) calls
  end.

(** The number of [step] calls among the calls. *)
Fixpoint steps (calls : list Call) : nat :=
  match calls with
  | [] => 0%nat
  | Head :: calls => steps calls
  | Step :: calls => S (steps calls)
  end.

End Spec.

(* ===================================================================== *)
(** * Definitions for the statements and the proofs *)
(* ===================================================================== *)

(** The classifiers on a one-character string, as boolean tests on its
    code point. *)
Definition start_test (c : N) : bool :=
  let z := Z.of_N c in
  ((65 <=? z) && (z <=? 90)) || (z =? 95) || ((97 <=? z) && (z <=? 122)).
Definition continue_test (c : N) : bool :=
  let z := Z.of_N c in
  (z =? 45) || ((48 <=? z) && (z <=? 57)) || start_test c.

Section WriterStatements.

Context {float_str : FloatStr}.
Import Writers.

(** [parse] reads back what the writer wrote for [v]. *)
Definition round_trips (parse : str -> Value) (v : Value) : Prop :=
  exists output, write_value v = Ok (Some output)
                 /\ parse (OutputMessage.message output) = v.

End WriterStatements.

Section PoolStatements.

Import Connections.

(** The connection that the pool holds for a host, with its location. *)
Definition pooled (w : World) (host_uri : str) : option (loc * _WSConnection) :=
  match connections w !! host_uri with
  | Some l =>
      match heap w !! l with
      | Some connection => Some (l, connection)
      | None => None
      end
  | None => None
  end.

(** The entry of the pool for a host, if there is one, names a
    connection of the store. *)
Definition pool_entry_sound (w : World) (host_uri : str) : Prop :=
  match connections w !! host_uri with
  | Some l => is_Some (heap w !! l)
  | None => True
  end.

(** Two states of a connection with the same reconnect flags. *)
Definition same_flags (c c' : _WSConnection) : Prop :=
  keep_linked c' = keep_linked c /\ keep_synced c' = keep_synced c.

(** From [w] to [w'] the store holds the same connections, each with its
    flags as before. *)
Definition kept (w w' : World) : Prop :=
  forall l, option_Forall2 same_flags (heap w !! l) (heap w' !! l).

(** A call that keeps the flags, from every world, and from the worlds
    where the connection at [l] is [c]. *)
Definition keeps {A} (m : M A) : Prop :=
  forall w r w', m w = Some (r, w') -> kept w w'.
Definition keeps_from {A} (l : loc) (c : _WSConnection) (m : M A) : Prop :=
  forall w r w', heap w !! l = Some c -> m w = Some (r, w') -> kept w w'.

(** Two value downlink views of the same lane of the same host; the first
    asks for no persistence, the second for [keep_linked]. *)
Definition host : str := lit "ws://localhost:9001".
Definition view_a : _DownlinkView :=
  mkView host (lit "ws") false false (lit "/unit/foo") (lit "info") ValueKind None 0.
Definition view_b : _DownlinkView :=
  mkView host (lit "ws") true false (lit "/unit/foo") (lit "info") ValueKind None 0.

(** The two views are made, in a pool with no connection, whose first
    handshake will succeed; then the first view is added to the pool. *)
Definition first_added : option (result (loc * loc) * World) :=
  (do a <- new_view view_a;
   do b <- new_view view_b;
   _add_downlink_view a;;
   ret (a, b)) (empty_world BaseStrategy [true]).

(** ... and then the second view is added as well. *)
Definition both_added : option (result (loc * loc) * World) :=
  (do a <- new_view view_a;
   do b <- new_view view_b;
   _add_downlink_view a;;
   _add_downlink_view b;;
   ret (a, b)) (empty_world BaseStrategy [true]).

(** The world that a run leaves. *)
Definition world_of {A} (run : option (result A * World)) : World :=
  match run with
  | Some (_, w) => w
  | None => empty_world BaseStrategy []
  end.

(** The reading of C5: the OR of [keep_linked] and [keep_synced] over the
    current subscribers of the connection. *)
Definition subscribers_want_reconnect (w : World) (self : _WSConnection) : bool :=
  any_subscriber _keep_linked w self || any_subscriber _keep_synced w self.

(** The connection that the pool holds for the host once the first view
    was added. *)
Definition first_connection : _WSConnection :=
  match pooled (world_of first_added) host with
  | Some (_, self) => self
  | None => _WSConnection_init host (lit "ws") false false
  end.

End PoolStatements.

Section ViewStatements.

Import Downlinks.

(** A store with a started client, a view that is not open (at 0), an
    open view (at 1) and the model of the open view, whose value is 42. *)
Definition example_store : Store unit :=
  mkStore (mkClient true [add_downlink_view 1%nat])
          (<[0%nat := mkView (Some (lit "ws://localhost:9001")) (Some (lit "/unit/foo"))
                            (Some (lit "info")) None false false None None]>
             (<[1%nat := mkView (Some (lit "ws://localhost:9001")) (Some (lit "/unit/foo"))
                               (Some (lit "info")) None true true (Some 0%nat)
                               (Some 0%nat)]> ∅))
          (<[0%nat := mkModel (Some (lit "ws://localhost:9001")) (Some (lit "/unit/foo"))
                             (Some (lit "info")) (Some 0%nat) (PyInt 42) true true]> ∅)
          (<[0%nat := tt]> ∅).

(** A choice for the parameter: before the client has started, a
    decorated call raises. *)
Definition refuse_before_started (st : Store unit) : Outcome (option Future) * Store unit :=
  (Raises RuntimeError, st).

End ViewStatements.

(* ===================================================================== *)
(** * More of the cited files *)
(* ===================================================================== *)

(** An instance of the float printer for the examples, none of which
    holds a float. *)
Definition no_float_str : FloatStr := fun _ => lit "float".

(** ** Character classes and the shape of written records *)

(** [is_space] and [is_digit] on a one-character string, as boolean tests
    on its code point. *)
Definition space_test (c : N) : bool :=
  let z := Z.of_N c in (z =? 32) || (z =? 9).
Definition digit_test (c : N) : bool :=
  let z := Z.of_N c in (48 <=? z) && (z <=? 57).

(** A value for which [write_value] returns [None]: [Extant], and a record
    without items. *)
Definition writes_nothing (v : Value) : bool :=
  match v with
  | Extant => true
  | Record [] => true
  | _ => false
  end.

(** A value all of whose records hold no bare [Extant] and no bare empty
    record among their items, at any depth. *)
Fixpoint writable (v : Value) : bool :=
  match v with
  | Record items => forallb writable_item items
  | _ => true
  end
with writable_item (i : Item) : bool :=
  match i with
  | ItemValue v => negb (writes_nothing v) && writable v
  | Attr key value => writable key && writable value
  | Slot key value => writable key && writable value
  end.

(** The items that [BlockWriter.write] writes in line: attributes, and
    values that are not records. *)
Definition inline_item (i : Item) : bool :=
  match i with
  | Attr _ _ => true
  | ItemValue v => negb (Structs.is_record v)
  | Slot _ _ => false
  end.

(** Whether the first slot of a block opens a brace, the block having
    written [text] so far: the text is not empty and does not end in an
    opening parenthesis. *)
Definition opens_brace (text : str) : bool :=
  negb (bool_decide (text = [])) && negb (bool_decide (last text = Some 40%N)).

(** The texts, each after the first preceded by a comma. *)
Fixpoint comma_separated (texts : list str) : str :=
  match texts with
  | [] => []
  | [t] => t
  | t :: texts => t ++ lit "," ++ comma_separated texts
  end.

Section WriterOutcomes.

Context {float_str : FloatStr}.
Import Writers.

(** What [write_value] and [write_item] do on a value and on an item, by
    whether it is [writable]. *)
Definition write_value_outcome (v : Value) : Prop :=
  if writable v
  then exists o, write_value v = Ok o /\ (o = None <-> writes_nothing v = true)
  else write_value v = Raise AttributeError.
Definition write_item_outcome (i : Item) : Prop :=
  if writable_item i
  then exists text, write_item i = Ok text
  else write_item i = Raise AttributeError.

(** The text of an output, closed by a brace when the block is in braces. *)
Definition closed (in_braces : bool) (text : str) : OutputMessage.t :=
  if in_braces then OutputMessage.mk (text ++ lit "}") else OutputMessage.mk text.

(** [write_item] writes the items to the texts, one by one. *)
Definition written (items : list Item) (texts : list str) : Prop :=
  Forall2 (fun item text => write_item item = Ok text) items texts.

End WriterOutcomes.

(** An induction principle for values and items together. *)
Section ValueInduction.

Variable P : Value -> Prop.
Variable Q : Item -> Prop.
Hypothesis HRecord : forall items, Forall Q items -> P (Record items).
Hypothesis HText : forall s, P (Text s).
Hypothesis HNum : forall n, P (Num n).
Hypothesis HBool : forall b, P (Bool b).
Hypothesis HExtant : P Extant.
Hypothesis HAbsent : P Absent.
Hypothesis HItemValue : forall v, P v -> Q (ItemValue v).
Hypothesis HAttr : forall key value, P key -> P value -> Q (Attr key value).
Hypothesis HSlot : forall key value, P key -> P value -> Q (Slot key value).

Fixpoint Value_Item_ind (v : Value) : P v :=
  match v with
  | Record items =>
      HRecord items
        ((fix each (l : list Item) : Forall Q l :=
            match l with
            | [] => List.Forall_nil Q
            | i :: l => List.Forall_cons Q i l (Item_Value_ind i) (each l)
            end) items)
  | Text s => HText s
  | Num n => HNum n
  | Bool b => HBool b
  | Extant => HExtant
  | Absent => HAbsent
  end
with Item_Value_ind (i : Item) : Q i :=
  match i with
  | ItemValue v => HItemValue v (Value_Item_ind v)
  | Attr key value => HAttr key value (Value_Item_ind key) (Value_Item_ind value)
  | Slot key value => HSlot key value (Value_Item_ind key) (Value_Item_ind value)
  end.

End ValueInduction.

(** ** Retry strategies, called again and again *)

Module Retries.
Import Connections.

(** What [n] calls of [retry] in a row return, the sleeps they make, and
    the strategy they leave. *)
Fixpoint retry_n (n : nat) (self : RetryStrategy) : list bool * list Z * RetryStrategy :=
  match n with
  | O => ([], [], self)
  | S n =>
      let r := retry self in
      let '(results, slept, self) := retry_n n (after r) in
      (returned r :: results, sleeps r ++ slept, self)
  end.

End Retries.

(** ** [_WSConnection] and [_ConnectionPool]: closing, removing, reconnecting *)

Module Lifecycle.
Import Connections.

Definition set_connections (p : gmap str loc) (w : World) : World :=
  mkWorld (heap w) (views w) p (retry_strategy w)
          (handshakes w) (slept w) (receive_loops w).
Definition set_auth_message (m : option str) (c : _WSConnection) : _WSConnection :=
  {| host_uri := host_uri c; scheme := scheme c; connected := connected c;
     websocket := websocket c; status := status c;
     auth_message := m; init_message := init_message c;
     keep_linked := keep_linked c; keep_synced := keep_synced c;
     subscribers := subscribers c; authenticated := authenticated c |}.
Definition set_init_message (m : option str) (c : _WSConnection) : _WSConnection :=
  {| host_uri := host_uri c; scheme := scheme c; connected := connected c;
     websocket := websocket c; status := status c;
     auth_message := auth_message c; init_message := m;
     keep_linked := keep_linked c; keep_synced := keep_synced c;
     subscribers := subscribers c; authenticated := authenticated c |}.

(** [_WSConnection._close].  The socket object stays in [websocket]; that
    it was closed (with [close_timeout] 0.1) is a fact about the socket,
    of which the model keeps the frames sent only. *)
Definition _close (l : loc) : M unit :=
  do self <- get_conn l;
  if negb (bool_decide (status self = _ConnectionStatus.CLOSED)) then
    let self := set_status _ConnectionStatus.CLOSED self in
    match websocket self with
    | Some _ => put_conn l (set_connected false self)
    | None => put_conn l self
    end
  else ret tt.

(** What [_close] leaves of a connection. *)
Definition closed_connection (c : _WSConnection) : _WSConnection :=
  if bool_decide (status c = _ConnectionStatus.CLOSED) then c
  else match websocket c with
       | Some _ => set_connected false (set_status _ConnectionStatus.CLOSED c)
       | None => set_status _ConnectionStatus.CLOSED c
       end.

(** What a successful [_open] makes of a connection that was [CLOSED]. *)
Definition opened_connection (c : _WSConnection) : _WSConnection :=
  set_connected true
    (set_status _ConnectionStatus.IDLE
       (set_websocket
          (Some (mkWebSocket (host_uri c) (bool_decide (scheme c = lit "wss")) []))
          c)).

(** The connection after a frame more was sent over its socket. *)
Definition sent_more (frames : list Frame) (c : _WSConnection) : _WSConnection :=
  match websocket c with
  | Some ws =>
      set_websocket (Some (mkWebSocket (ws_uri ws) (ws_ssl ws) (ws_sent ws ++ frames))) c
  | None => c
  end.

(** A view after its [did_open] callback was triggered once more, and a
    view after its [_connection] was assigned. *)
Definition did_open_once (view : _DownlinkView) : _DownlinkView :=
  mkView (_host_uri view) (_scheme view) (_keep_linked view) (_keep_synced view)
         (_node_uri view) (_lane_uri view) (_kind view) (_connection view)
         (S (_did_open view)).
Definition with_connection (l : loc) (view : _DownlinkView) : _DownlinkView :=
  mkView (_host_uri view) (_scheme view) (_keep_linked view) (_keep_synced view)
         (_node_uri view) (_lane_uri view) (_kind view) (Some l) (_did_open view).

(** A manager with a view more. *)
Definition with_view (v : loc) (manager : _DownlinkManager) : _DownlinkManager :=
  mkManager (connection manager) (manager_status manager) (downlink_model manager)
            (<[hash v := v]> (downlink_views manager)).

(** The frame that establishes the downlink of a view: [sync] for a value
    or map downlink, [link] for an event downlink. *)
Definition establishing (view : _DownlinkView) : Frame :=
  match _kind view with
  | EventKind => LinkFrame (_node_uri view) (_lane_uri view)
  | ValueKind | MapKind => SyncFrame (_node_uri view) (_lane_uri view)
  end.

(** The manager of a downlink that is open with one view [v], the view
    and the model being attached to the connection [l]. *)
Definition open_manager (l v : loc) (view : _DownlinkView) : _DownlinkManager :=
  mkManager (Some l) _DownlinkManagerStatus.OPEN
            (Some (mkModel (_kind view) (_node_uri view) (_lane_uri view) (Some l)))
            (<[hash v := v]> ∅).

(** The frames that a reconnection replays: the auth message, then the
    init message, each if it is set. *)
Definition replayed (c : _WSConnection) : list Frame :=
  match auth_message c with Some m => [TextFrame m] | None => [] end
  ++ match init_message c with Some m => [TextFrame m] | None => [] end.

(** [_ConnectionPool._remove_connection]; a connection object is true. *)
Definition _remove_connection (host_uri : str) : M unit := fun w =>
  match connections w !! host_uri with
  | Some l => _close l (set_connections (delete host_uri (connections w)) w)
  | None => Some (Ok tt, w)
  end.

(** [_WSConnection._set_auth_message] and [_set_init_message] *)
Definition _set_auth_message (l : loc) (message : option str) : M unit :=
  do self <- get_conn l; put_conn l (set_auth_message message self).
Definition _set_init_message (l : loc) (message : option str) : M unit :=
  do self <- get_conn l; put_conn l (set_init_message message self).

(** [_WSConnection._send_auth_message] and [_send_init_message] *)
Definition _send_auth_message (l : loc) : M unit :=
  do self <- get_conn l;
  match auth_message self with
  | Some message => _send_message l (TextFrame message)
  | None => ret tt
  end.
Definition _send_init_message (l : loc) : M unit :=
  do self <- get_conn l;
  match init_message self with
  | Some message => _send_message l (TextFrame message)
  | None => ret tt
  end.

(** [retry_strategy.retry()] of the pool's strategy, in the world. *)
Definition strategy_retry : M bool := fun w =>
  let r := retry (retry_strategy w) in
  Some (Ok (returned r),
        mkWorld (heap w) (views w) (connections w) (after r)
                (handshakes w) (slept w ++ sleeps r) (receive_loops w)).

(** The handler [except ConnectionClosed] of [_wait_for_messages]: it
    returns whether the loop goes on ([continue]). *)
Definition on_connection_closed (l : loc) : M bool :=
  _close l;;
  do self <- get_conn l;
  if should_reconnect self then
    do again <- strategy_retry;
    if again : bool then
      _open l;;
      _send_auth_message l;;
      _send_init_message l;;
      ret true
    else ret false
  else ret false.

End Lifecycle.

(** ** Worlds for the examples *)

Section ExampleWorlds.

Import Connections.

(** A world with one connection, new and not in the pool, that asks to
    keep linked over [wss]; the strategy is a new [IntervalStrategy] with a
    limit of 2 and a delay of 3; the first handshake will fail and the
    second succeed. *)
Definition lone_connection : _WSConnection :=
  _WSConnection_init host (lit "wss") true false.
Definition lone_world : World :=
  mkWorld (<[0%nat := lone_connection]> ∅) ∅ ∅
          (IntervalStrategy_init (Some 2) 3) [false; true] [] [].

(** The same connection in a pool with the base strategy, when the next
    handshake will succeed. *)
Definition ready_world : World :=
  mkWorld (<[0%nat := lone_connection]> ∅) ∅ ∅ BaseStrategy [true] [] [].

(** That connection once opened, with an auth and an init message set,
    in a pool whose [IntervalStrategy] has no limit; the next handshake
    will succeed. *)
Definition running_connection : _WSConnection :=
  Lifecycle.set_auth_message (Some (lit "@auth"))
    (Lifecycle.set_init_message (Some (lit "@init"))
       (Lifecycle.opened_connection lone_connection)).
Definition running_world : World :=
  mkWorld (<[0%nat := running_connection]> ∅) ∅ ∅
          (IntervalStrategy_init None 3) [true] [] [].

End ExampleWorlds.

(** ** [ValueDownlinkView.open] and [close] *)

Module ViewLifecycle.
Import Downlinks.

Section Store.

Variable Connection : Type.
Variable before_started : Store Connection -> Outcome (option Future) * Store Connection.

Definition set_is_open (b : bool) (view : ValueDownlinkView) : ValueDownlinkView :=
  mkView (host_uri view) (node_uri view) (lane_uri view) (did_set_callback view)
         b (initialised view) (model view) (connection view).

Definition put_view (self : loc) (view : ValueDownlinkView) (st : Store Connection)
  : Store Connection :=
  mkStore (client st) (<[self := view]> (view_objs st)) (model_objs st)
          (connection_objs st).

(** [ValueDownlinkView.open]: the call returns the view itself. *)
Definition open (self : loc) (st : Store Connection) : Outcome loc * Store Connection :=
  match view_objs st !! self with
  | None => (Raises AttributeError, st)
  | Some view =>
      if negb (is_open view) then
        let st := put_view self (set_is_open true view) st in
        match schedule_task before_started (add_downlink_view self) st with
        | (Returns _, st) => (Returns self, st)
        | (Raises e, st) => (Raises e, st)
        | (Awaits f, st) => (Awaits f, st)
        end
      else (Returns self, st)
  end.

(** [ValueDownlinkView.close] *)
Definition close (self : loc) (st : Store Connection) : Outcome loc * Store Connection :=
  match view_objs st !! self with
  | None => (Raises AttributeError, st)
  | Some view =>
      if is_open view then
        let st := put_view self (set_is_open false view) st in
        match schedule_task before_started (remove_downlink_view self) st with
        | (Returns _, st) => (Returns self, st)
        | (Raises e, st) => (Raises e, st)
        | (Awaits f, st) => (Awaits f, st)
        end
      else (Returns self, st)
  end.

End Store.

Arguments open {Connection}.
Arguments close {Connection}.
Arguments put_view {Connection}.

End ViewLifecycle.

(* ===================================================================== *)
(** * Properties of swimai/recon/utils.py *)
(* ===================================================================== *)

Section ReconUtilsProperties.

Import ReconUtils.

Lemma result_bind_Ok {A B} (a : A) (f : A -> result B) : Ok a ≫= f = f a.
Proof. reflexivity. Qed.

Lemma is_ident_start_char_str (c : N) :
  is_ident_start_char (PyStr [c]) = Ok (start_test c).
Proof.
  unfold is_ident_start_char, start_test, py_between; cbn.
  change (ord "A") with 65; change (ord "Z") with 90; change (ord "_") with 95;
    change (ord "a") with 97; change (ord "z") with 122.
  destruct (65 <=? Z.of_N c) eqn:E1; cbn;
    destruct (Z.of_N c <=? 90) eqn:E2; cbn; try reflexivity;
    destruct (Z.of_N c =? 95) eqn:E3; cbn; try reflexivity;
    destruct (97 <=? Z.of_N c) eqn:E4; cbn; reflexivity.
Qed.

Lemma is_ident_start_char_int (z : Z) :
  is_ident_start_char (PyInt z)
  = Ok (((65 <=? z) && (z <=? 90)) || (z =? 95) || ((97 <=? z) && (z <=? 122))).
Proof.
  unfold is_ident_start_char, py_between; cbn.
  change (ord "A") with 65; change (ord "Z") with 90; change (ord "_") with 95;
    change (ord "a") with 97; change (ord "z") with 122.
  destruct (z =? 0) eqn:E0; cbn.
  - apply Z.eqb_eq in E0; subst; reflexivity.
  - destruct (65 <=? z) eqn:E1; cbn;
      destruct (z <=? 90) eqn:E2; cbn; try reflexivity;
      destruct (z =? 95) eqn:E3; cbn; try reflexivity;
      destruct (97 <=? z) eqn:E4; cbn; reflexivity.
Qed.

Lemma is_digit_int (z : Z) :
  is_digit (PyInt z) = Ok ((48 <=? z) && (z <=? 57)).
Proof.
  unfold is_digit, py_between; cbn.
  change (ord "0") with 48; change (ord "9") with 57.
  destruct (z =? 0) eqn:E0; cbn.
  - apply Z.eqb_eq in E0; subst; reflexivity.
  - destruct (48 <=? z); reflexivity.
Qed.

Lemma is_ident_char_str (c : N) :
  is_ident_char (PyStr [c]) = Ok (continue_test c).
Proof.
  unfold is_ident_char, continue_test; cbn.
  change (ord "-") with 45.
  destruct (Z.of_N c =? 45) eqn:E; cbn; [reflexivity|].
  rewrite is_digit_int; cbn.
  destruct ((48 <=? Z.of_N c) && (Z.of_N c <=? 57)); cbn; [reflexivity|].
  rewrite is_ident_start_char_int. reflexivity.
Qed.

Lemma start_test_spec (c : N) : start_test c = true <-> Spec.ident_start c.
Proof.
  unfold start_test, Spec.ident_start.
  change (ord "A") with 65; change (ord "Z") with 90; change (ord "_") with 95;
    change (ord "a") with 97; change (ord "z") with 122.
  rewrite !orb_true_iff, !andb_true_iff, !Z.leb_le, Z.eqb_eq. tauto.
Qed.

Lemma continue_test_spec (c : N) : continue_test c = true <-> Spec.ident_continue c.
Proof.
  unfold continue_test, Spec.ident_continue.
  rewrite !orb_true_iff, start_test_spec.
  change (ord "0") with 48; change (ord "9") with 57; change (ord "-") with 45.
  rewrite !andb_true_iff, !Z.leb_le, Z.eqb_eq. tauto.
Qed.

Lemma start_continue (c : N) : start_test c = true -> continue_test c = true.
Proof. unfold continue_test. intros ->. apply orb_true_r. Qed.

Lemma is_ident_loop_forallb (chars : str) :
  is_ident_loop chars = Ok (forallb continue_test chars).
Proof.
  induction chars as [|c chars IH]; [reflexivity|].
  cbn [is_ident_loop forallb]. rewrite is_ident_char_str. cbn.
  destruct (continue_test c); [exact IH | reflexivity].
Qed.

Lemma is_ident_eval (value : str) :
  is_ident value
  = Ok match value with
       | [] => false
       | first :: rest => start_test first && forallb continue_test rest
       end.
Proof.
  destruct value as [|first rest]; [reflexivity|].
  unfold is_ident.
  rewrite is_ident_start_char_str, is_ident_loop_forallb, result_bind_Ok.
  cbn [forallb].
  destruct (start_test first) eqn:E; [|reflexivity].
  rewrite (start_continue _ E). reflexivity.
Qed.

(** C8. For every string [s], [is_ident(s)] returns (it does not raise),
    and it returns [True] if and only if [s] is not empty, its first
    character is in [[A-Za-z_]] and every remaining character is in
    [[A-Za-z0-9_-]]. *)
Theorem is_ident_iff (s : str) :
  exists b : bool, is_ident s = Ok b /\ (b = true <-> Spec.ident s).
Proof.
  rewrite is_ident_eval. eexists; split; [reflexivity|].
  destruct s as [|head tail]; cbn [Spec.ident].
  - split; [discriminate | tauto].
  - rewrite andb_true_iff, start_test_spec, forallb_forall, Forall_forall.
    split; intros [H1 H2]; (split; [exact H1|]); intros c Hc;
      apply continue_test_spec, H2.
    + now apply list_elem_of_In.
    + now apply list_elem_of_In.
Qed.

End ReconUtilsProperties.

Section CharacterInputs.

Import ReconUtils.

(** C7 (as amended). For every input that is neither a [str] nor an
    [int]: [to_ord] yields [None]; [is_space] and [is_ident_char] return
    [False]; [is_ident_start_char] and [is_digit] return [False] when the
    input is falsy (such as [None]). *)
Theorem non_character_input (o : PyObj) :
  Spec.not_a_character o ->
  to_ord o = Ok None
  /\ is_space o = Ok false
  /\ is_ident_char o = Ok false
  /\ (truthy o = false ->
      is_ident_start_char o = Ok false /\ is_digit o = Ok false).
Proof.
  intros [Hstr Hint].
  destruct o; cbn in Hstr, Hint; try discriminate.
  - (* float *)
    unfold is_space, is_ident_char, is_ident_start_char, is_digit.
    cbn [truthy]. destruct (float_is_zero f); cbn; repeat split; try reflexivity;
      intros; discriminate.
  - (* None *)
    repeat split; reflexivity.
  - (* list *)
    unfold is_space, is_ident_char, is_ident_start_char, is_digit.
    cbn [truthy]. destruct (length xs =? 0)%nat; cbn; repeat split;
      try reflexivity; intros; discriminate.
Qed.

Lemma non_character_input_witness :
  to_ord PyNone = Ok None
  /\ is_space PyNone = Ok false
  /\ is_ident_char PyNone = Ok false
  /\ is_ident_start_char PyNone = Ok false
  /\ is_digit PyNone = Ok false.
Proof.
  destruct (non_character_input PyNone) as (H1 & H2 & H3 & H4).
  - split; reflexivity.
  - destruct (H4 eq_refl) as [H5 H6]. repeat split; assumption.
Defined.

(** C7 as stated fails: the float [1.5] is not a character, and on it
    [is_digit] and [is_ident_start_char] raise [TypeError] (they order
    [None] against an [int]) where the claim has them return [False]. *)
Lemma classifier_raises_on_float :
  Spec.not_a_character (PyFloat Spec.float_1_5)
  /\ to_ord (PyFloat Spec.float_1_5) = Ok None
  /\ is_digit (PyFloat Spec.float_1_5) = Raise TypeError
  /\ is_ident_start_char (PyFloat Spec.float_1_5) = Raise TypeError
  /\ is_digit (PyFloat Spec.float_1_5) <> Ok false
  /\ is_ident_start_char (PyFloat Spec.float_1_5) <> Ok false.
Proof.
  repeat split; try reflexivity; discriminate.
Qed.

End CharacterInputs.

(* ===================================================================== *)
(** * Properties of the input cursor *)
(* ===================================================================== *)

Section InputCursor.

Import InputMessage.

Lemma head_at (message : str) (i : nat) :
  head (mk message (Z.of_nat i)) = Ok (Spec.char_at message i).
Proof.
  unfold head, is_cont, Spec.char_at, str_getitem; cbn [InputMessage.message index].
  rewrite Z.geb_leb.
  destruct (Z.leb_spec (Z.of_nat (length message)) (Z.of_nat i)) as [E|E].
  - assert (Hlen : (length message <= i)%nat) by lia.
    apply nth_error_None in Hlen. now rewrite Hlen.
  - destruct (Z.ltb_spec (Z.of_nat i) 0) as [H0|H0]; [lia|].
    destruct (Z.leb_spec 0 (Z.of_nat i)) as [H1|H1]; [|lia].
    destruct (Z.ltb_spec (Z.of_nat i) (Z.of_nat (length message))) as [H2|H2]; [|lia].
    cbn [andb]. rewrite Nat2Z.id.
    destruct (nth_error message i) eqn:Hn; [reflexivity|].
    apply nth_error_None in Hn. lia.
Qed.

Lemma step_at (message : str) (i : nat) :
  step (mk message (Z.of_nat i))
  = (mk message (Z.of_nat (S i)), Ok (Spec.char_at message (S i))).
Proof.
  unfold step; cbn [InputMessage.message index].
  replace (Z.of_nat i + 1) with (Z.of_nat (S i)) by lia.
  now rewrite head_at.
Qed.

Lemma run_from (message : str) (calls : list Spec.Call) (i : nat) :
  Spec.run calls (mk message (Z.of_nat i))
  = (mk message (Z.of_nat (i + Spec.steps calls)), Spec.returns message i calls).
Proof.
  revert i; induction calls as [|c calls IH]; intros i.
  - cbn. now rewrite Nat.add_0_r.
  - destruct c; cbn [Spec.run Spec.perform Spec.steps Spec.returns].
    + rewrite head_at, IH. reflexivity.
    + rewrite step_at, IH. now rewrite Nat.add_succ_r.
Qed.

Lemma char_at_end (message : str) (k : nat) :
  Spec.char_at message (length message + k) = [].
Proof.
  unfold Spec.char_at.
  assert (H : nth_error message (length message + k) = None)
    by (apply nth_error_None; lia).
  now rewrite H.
Qed.

(** C10. The input cursor is total.  For every message and every
    sequence of [head()] and [step()] calls on its cursor, no call raises;
    each [head()] returns the character at the current index when the
    index is inside the message and the empty string otherwise; each
    [step()] moves the index on by exactly one and returns the new head.
    At or past the end of the message [head()] returns the empty string,
    [is_cont()] returns [False], and [step()] still moves the index on by
    one and returns the empty string. *)
Theorem input_cursor_total (message : str) (calls : list Spec.Call) :
  Spec.run calls (create message)
  = (mk message (Z.of_nat (Spec.steps calls)), Spec.returns message 0 calls)
  /\ (forall self : t, index (fst (step self)) = index self + 1
                       /\ InputMessage.message (fst (step self))
                          = InputMessage.message self)
  /\ (forall k : nat,
        let self := mk message (Z.of_nat (length message + k)) in
        head self = Ok []
        /\ is_cont self = false
        /\ step self = (mk message (Z.of_nat (length message + k) + 1), Ok [])).
Proof.
  split; [|split].
  - exact (run_from message calls 0).
  - intros self. split; reflexivity.
  - intros k self. subst self. repeat split.
    + now rewrite head_at, char_at_end.
    + unfold is_cont; cbn [InputMessage.message index].
      rewrite Z.geb_leb.
      destruct (Z.leb_spec (Z.of_nat (length message))
                           (Z.of_nat (length message + k))) as [E|E];
        [reflexivity | lia].
    + rewrite step_at. rewrite <- Nat.add_succ_r, char_at_end.
      f_equal. f_equal. lia.
Qed.

End InputCursor.

(* ===================================================================== *)
(** * Properties of the Recon writer *)
(* ===================================================================== *)

Section WriterProperties.

Context {float_str : FloatStr}.
Import Writers.

Example str_int_examples :
  str_int 42 = lit "42" /\ str_int (-7) = lit "-7" /\ str_int 0 = lit "0".
Proof. repeat split; reflexivity. Qed.


(** C1 fails on the code: the writer writes the number [0] and [Absent]
    to the same text, the empty string, so whatever the parser makes of
    that text, it does not read back both; no parser has this writer as
    its inverse on the values [Num(0)] and [Absent], which the parser
    produces from [0] and from the empty input. *)
Theorem writer_zero_collides_with_absent (parse : str -> Value) :
  write_value (Num (NumInt 0)) = Ok (Some (OutputMessage.mk []))
  /\ write_value Absent = Ok (Some (OutputMessage.mk []))
  /\ ~ (round_trips parse (Num (NumInt 0)) /\ round_trips parse Absent).
Proof.
  split; [reflexivity|]. split; [reflexivity|].
  intros [(o1 & W1 & P1) (o2 & W2 & P2)].
  cbn in W1, W2. injection W1 as <-. injection W2 as <-.
  cbn in P1, P2. congruence.
Qed.

(** [AttrWriter.write] on a value of size 0 that is not [Extant]: the
    output stops after the opening parenthesis. *)
Lemma AttrWriter_size_zero (key value : Value) (key_text value_text : option OutputMessage.t) :
  write_value key = Ok key_text ->
  write_value value = Ok value_text ->
  Structs.is_extant value = false ->
  Structs.size value = 0 ->
  write_attr key value
  = Ok (OutputMessage.append
          (append_if (OutputMessage.create (Some (lit "@"))) key_text) (lit "(")).
Proof.
  intros Hk Hv He Hs. unfold write_attr, AttrWriter_write.
  rewrite Hk, He, Hs. cbn. rewrite Hv. reflexivity.
Qed.

(** [AttrWriter.write] on a value that is not [Extant] and whose size is
    not 0: the writing of the value, in parentheses. *)
Lemma AttrWriter_sized (key value : Value) (key_text value_text : option OutputMessage.t) :
  write_value key = Ok key_text ->
  write_value value = Ok value_text ->
  Structs.is_extant value = false ->
  Structs.size value <> 0 ->
  write_attr key value
  = Ok (OutputMessage.append
          (append_if
             (OutputMessage.append
                (append_if (OutputMessage.create (Some (lit "@"))) key_text) (lit "("))
             value_text)
          (lit ")")).
Proof.
  intros Hk Hv He Hs. unfold write_attr, AttrWriter_write.
  rewrite Hk, He. cbn. rewrite Hv. cbn.
  apply Z.eqb_neq in Hs. rewrite Hs. reflexivity.
Qed.

(** C2 on the code.  [Attr("tag", Extant)] is written [@tag], and an
    attribute of a record that holds items is written with the record in
    parentheses; [Attr("tag", Record[])], whose value has size 0, is
    written [@tag(] with no closing parenthesis, where the claim has
    [@tag()]. *)
Theorem attr_writer_cases :
  write_item (Attr (Text (lit "tag")) Extant) = Ok (lit "@tag")
  /\ write_item (Attr (Text (lit "tag")) (Record [])) = Ok (lit "@tag(")
  /\ write_item (Attr (Text (lit "tag"))
                      (Record [Slot (Text (lit "key")) (Num (NumInt 2))]))
     = Ok (lit "@tag(key:2)").
Proof. repeat split; vm_compute; reflexivity. Qed.

End WriterProperties.

(* ===================================================================== *)
(** * Properties of [str] on a float and of the number writer *)
(* ===================================================================== *)

Section FloatReprProperties.

Import Writers FloatRepr.

(** [str] on some floats: [1.5] (also when its mantissa is not
    normalised), [0.1], [1e16], [1e-05], [-2.5], [123456789.0], the least
    float above zero and the one after it, the greatest float, a third,
    and a float half way between two decimals of sixteen digits. *)
Example float_repr_examples :
  float_repr (S754_finite false 6755399441055744 (-52)) = lit "1.5"
  /\ float_repr (S754_finite false 3 (-1)) = lit "1.5"
  /\ float_repr (S754_finite false 7205759403792794 (-56)) = lit "0.1"
  /\ float_repr (S754_finite false 5000000000000000 1) = lit "1e+16"
  /\ float_repr (S754_finite false 5902958103587057 (-69)) = lit "1e-05"
  /\ float_repr (S754_finite true 5629499534213120 (-51)) = lit "-2.5"
  /\ float_repr (S754_finite false 8285044862877696 (-26)) = lit "123456789.0"
  /\ float_repr (S754_finite false 1 (-1074)) = lit "5e-324"
  /\ float_repr (S754_finite false 2 (-1074)) = lit "1e-323"
  /\ float_repr (S754_finite false 9007199254740991 971)
     = lit "1.7976931348623157e+308"
  /\ float_repr (S754_finite false 6004799503160661 (-54)) = lit "0.3333333333333333"
  /\ float_repr (S754_finite false 4503599627370498 (-3)) = lit "562949953421312.2".
Proof. vm_compute. repeat split. Qed.

















(** ** The digits of a decimal and the numeral laid out from them *)















(** ** The characters of the text *)












End FloatReprProperties.

(* ===================================================================== *)
(** * Properties of the retry strategies *)
(* ===================================================================== *)

Section RetryProperties.

Import Connections.

(** C4 on the code.  The base strategy returns [False] and does not
    sleep.  [IntervalStrategy.retry] returns [True], after sleeping
    [delay] and counting the retry, exactly when there is no limit or the
    completed retries are strictly below the limit.
    [ExponentialStrategy.retry] sleeps [min(2 ** retries, max_interval)]
    when it retries, but it retries when there is no limit or the
    completed retries are below or EQUAL to the limit: with a limit of 0
    it still retries once, where [IntervalStrategy] with a limit of 0
    does not. *)
Theorem retry_strategies (retries_limit : option Z) (delay max_interval retries : Z) :
  retry BaseStrategy = mkRetried false BaseStrategy []
  /\ retry (IntervalStrategy retries_limit delay retries)
     = (if match retries_limit with
           | None => true
           | Some limit => retries <? limit
           end
        then mkRetried true (IntervalStrategy retries_limit delay (retries + 1)) [delay]
        else mkRetried false (IntervalStrategy retries_limit delay retries) [])
  /\ retry (ExponentialStrategy retries_limit max_interval retries)
     = (if match retries_limit with
           | None => true
           | Some limit => retries <=? limit
           end
        then mkRetried true (ExponentialStrategy retries_limit max_interval (retries + 1))
                       [Z.min (2 ^ retries) max_interval]
        else mkRetried false (ExponentialStrategy retries_limit max_interval retries) [])
  /\ retry (IntervalStrategy_init (Some 0) 3)
     = mkRetried false (IntervalStrategy (Some 0) 3 0) []
  /\ retry (ExponentialStrategy_init (Some 0) 16)
     = mkRetried true (ExponentialStrategy (Some 0) 16 1) [1].
Proof.
  split; [reflexivity|]. split; [|split; [|split; reflexivity]].
  - unfold retry. destruct retries_limit as [limit|]; [|reflexivity].
    now rewrite Z.gtb_ltb.
  - unfold retry. destruct retries_limit as [limit|]; [|reflexivity].
    now rewrite Z.geb_leb.
Qed.

End RetryProperties.

(* ===================================================================== *)
(** * Properties of the connection pool *)
(* ===================================================================== *)

Section PoolProperties.

Import Connections.

(** C6. [_get_connection(host_uri, scheme, keep_linked, keep_synced)]
    returns the connection that the pool holds for [host_uri] when there
    is one and its status is not [CLOSED], and then changes nothing.
    Otherwise it returns a new connection, which it has stored in the pool
    under [host_uri]: an object that was not in the store, constructed
    from the arguments, with status [CLOSED] and no socket.  In neither
    case is a handshake made or a connection of the store touched. *)
Theorem get_connection_returns_pooled_or_new
    (w : World) (host_uri scheme : str) (keep_linked keep_synced : bool) :
  pool_entry_sound w host_uri ->
  exists (l : loc) (w' : World),
    _get_connection host_uri scheme keep_linked keep_synced w = Some (Ok l, w')
    /\ handshakes w' = handshakes w
    /\ (forall l0 c0, heap w !! l0 = Some c0 -> heap w' !! l0 = Some c0)
    /\ match pooled w host_uri with
       | Some (l0, connection) =>
           if bool_decide (status connection = _ConnectionStatus.CLOSED)
           then l <> l0 /\ heap w !! l = None
                /\ heap w' !! l = Some (_WSConnection_init host_uri scheme
                                                       keep_linked keep_synced)
                /\ connections w' = <[host_uri := l]> (connections w)
           else l = l0 /\ w' = w
       | None =>
           heap w !! l = None
           /\ heap w' !! l = Some (_WSConnection_init host_uri scheme
                                                  keep_linked keep_synced)
           /\ connections w' = <[host_uri := l]> (connections w)
       end
    /\ websocket (_WSConnection_init host_uri scheme keep_linked keep_synced) = None
    /\ status (_WSConnection_init host_uri scheme keep_linked keep_synced)
       = _ConnectionStatus.CLOSED.
Proof.
  intros Hsound.
  assert (Hfresh : heap w !! fresh (dom (heap w)) = None).
  { apply not_elem_of_dom. apply is_fresh. }
  assert (Hkeep : forall l0 c0, heap w !! l0 = Some c0 ->
            <[fresh (dom (heap w)) := _WSConnection_init host_uri scheme
                                        keep_linked keep_synced]> (heap w) !! l0
            = Some c0).
  { intros l0 c0 H0. rewrite lookup_insert_ne; [exact H0|].
    intros <-. rewrite Hfresh in H0. discriminate. }
  unfold pool_entry_sound in Hsound. unfold _get_connection, pooled.
  destruct (connections w !! host_uri) as [l0|] eqn:Hpool.
  - destruct Hsound as [c0 Hc0]. rewrite Hc0.
    destruct (bool_decide (status c0 = _ConnectionStatus.CLOSED)) eqn:Hst.
    + eexists _, _. split; [reflexivity|]. cbn [heap connections handshakes].
      repeat split; try assumption.
      * intros E. rewrite E in Hfresh. congruence.
      * apply lookup_insert_eq.
    + exists l0, w. repeat split; auto.
  - eexists _, _. split; [reflexivity|]. cbn [heap connections handshakes].
    repeat split; try assumption. apply lookup_insert_eq.
Qed.

End PoolProperties.

(* ===================================================================== *)
(** * The reconnect flags of a connection *)
(* ===================================================================== *)

Section ReconnectFlags.

Import Connections.

#[local] Instance same_flags_refl : Reflexive same_flags.
Proof. intros c; split; reflexivity. Qed.
#[local] Instance same_flags_trans : Transitive same_flags.
Proof. intros a b c [H1 H2] [H3 H4]; split; congruence. Qed.
#[local] Instance kept_refl : Reflexive kept.
Proof. intros w l. reflexivity. Qed.
#[local] Instance kept_trans : Transitive kept.
Proof. intros a b c H1 H2 l. etransitivity; [apply H1 | apply H2]. Qed.

Lemma kept_same_heap (w w' : World) : heap w' = heap w -> kept w w'.
Proof. intros E l. rewrite E. reflexivity. Qed.

Lemma kept_insert (w w' : World) (l : loc) (c c' : _WSConnection) :
  heap w !! l = Some c -> same_flags c c' ->
  heap w' = <[l := c']> (heap w) -> kept w w'.
Proof.
  intros Hl Hf E l0. rewrite E.
  destruct (decide (l = l0)) as [<-|Hne].
  - rewrite lookup_insert_eq, Hl. now constructor.
  - rewrite lookup_insert_ne by assumption. reflexivity.
Qed.

Lemma keeps_any_from {A} (m : M A) (l : loc) (c : _WSConnection) :
  keeps m -> keeps_from l c m.
Proof. intros H w r w' _. apply H. Qed.

Lemma keeps_ret {A} (a : A) : keeps (ret a).
Proof. intros w r w' H. injection H as _ <-. reflexivity. Qed.

Lemma keeps_raise {A} (e : exn) : keeps (@raise A e).
Proof. intros w r w' H. injection H as _ <-. reflexivity. Qed.

Lemma keeps_stuck {A} : keeps (@stuck A).
Proof. intros w r w' H. discriminate. Qed.

Lemma keeps_bind {A B} (m : M A) (k : A -> M B) :
  keeps m -> (forall a, keeps (k a)) -> keeps (bind m k).
Proof.
  intros Hm Hk w r w' H. unfold bind in H.
  destruct (m w) as [[[a|e] w1]|] eqn:E; [| |discriminate].
  - transitivity w1; [eapply Hm, E | eapply Hk, H].
  - injection H as _ <-. eapply Hm, E.
Qed.

Lemma keeps_get_conn_bind {B} (l : loc) (k : _WSConnection -> M B) :
  (forall c, keeps_from l c (k c)) -> keeps (bind (get_conn l) k).
Proof.
  intros Hk w r w' H. unfold bind, get_conn in H.
  destruct (heap w !! l) as [c|] eqn:E; [|discriminate].
  eapply Hk; eassumption.
Qed.

Lemma keeps_get_view_bind {B} (v : loc) (k : _DownlinkView -> M B) :
  (forall view, keeps (k view)) -> keeps (bind (get_view v) k).
Proof.
  intros Hk w r w' H. unfold bind, get_view in H.
  destruct (views w !! v) as [view|]; [|discriminate].
  eapply Hk; eassumption.
Qed.

Lemma keeps_from_put {l : loc} (c c' : _WSConnection) :
  same_flags c c' -> keeps_from l c (put_conn l c').
Proof.
  intros Hf w r w' Hl H. injection H as _ <-.
  eapply kept_insert; [exact Hl | exact Hf | reflexivity].
Qed.

Lemma keeps_put_view (v : loc) (view : _DownlinkView) : keeps (put_view v view).
Proof. intros w r w' H. injection H as _ <-. now apply kept_same_heap. Qed.

Lemma keeps_when (b : bool) (m : M unit) : keeps m -> keeps (when b m).
Proof. intros H. destruct b; [exact H | apply keeps_ret]. Qed.

(** The loop of [_open] leaves the flags of the connection as they are. *)
Lemma _open_loop_flags (script : list bool) :
  forall self strategy log o,
    _open_loop script self strategy log = Some o ->
    same_flags self (open_connection o).
Proof.
  induction script as [|outcome script IH]; intros self strategy log o H;
    cbn [_open_loop] in H;
    destruct (bool_decide (status self = _ConnectionStatus.CONNECTING));
    try discriminate;
    try (injection H as <-; reflexivity).
  destruct outcome.
  - apply IH in H. destruct H as [H1 H2]. split; [exact H1 | exact H2].
  - destruct (should_reconnect self).
    + destruct (returned (retry strategy)).
      * now apply IH in H.
      * injection H as <-. split; reflexivity.
    + injection H as <-. split; reflexivity.
Qed.

Lemma keeps_open (l : loc) : keeps (_open l).
Proof.
  intros w r w' H. unfold _open in H.
  destruct (heap w !! l) as [self|] eqn:Hl; [|discriminate].
  destruct (bool_decide (status self = _ConnectionStatus.CLOSED)).
  - destruct (_open_loop _ _ _ _) as [o|] eqn:Ho; [|discriminate].
    apply _open_loop_flags in Ho. destruct Ho as [H1 H2]. cbn in H1, H2.
    destruct (open_result o); injection H as _ <-;
      (eapply kept_insert; [exact Hl | | reflexivity]); split; assumption.
  - injection H as _ <-. reflexivity.
Qed.

Lemma keeps_send_message (l : loc) (message : Frame) : keeps (_send_message l message).
Proof.
  unfold _send_message.
  apply keeps_get_conn_bind; intros c0. apply keeps_any_from.
  apply keeps_bind; [apply keeps_when, keeps_open|]. intros _.
  apply keeps_get_conn_bind; intros self.
  destruct (connected self); [|apply keeps_any_from, keeps_stuck].
  destruct (websocket self); [|apply keeps_any_from, keeps_raise].
  apply keeps_from_put. split; reflexivity.
Qed.

Lemma keeps_get_manager_bind {B} (l : loc) (r : str) (k : _DownlinkManager -> M B) :
  (forall manager, keeps (k manager)) -> keeps (bind (get_manager l r) k).
Proof.
  intros Hk. apply keeps_bind; [|exact Hk].
  unfold get_manager. apply keeps_get_conn_bind; intros self. apply keeps_any_from.
  destruct (subscribers self !! r); [apply keeps_ret | apply keeps_stuck].
Qed.

Lemma keeps_put_manager (l : loc) (r : str) (manager : _DownlinkManager) :
  keeps (put_manager l r manager).
Proof.
  unfold put_manager. apply keeps_get_conn_bind; intros self.
  apply keeps_from_put. split; reflexivity.
Qed.

Lemma keeps_model_open (model : _DownlinkModel) : keeps (model_open model).
Proof.
  intros w r w' H. unfold model_open in H.
  destruct (model_connection model); injection H as _ <-; now apply kept_same_heap.
Qed.

Lemma keeps_establish_downlink (model : _DownlinkModel) :
  keeps (_establish_downlink model).
Proof.
  unfold _establish_downlink.
  destruct (model_connection model); [apply keeps_send_message | apply keeps_raise].
Qed.

Lemma keeps_manager_open (l : loc) (r : str) : keeps (manager_open l r).
Proof.
  unfold manager_open. apply keeps_get_manager_bind; intros self.
  destruct (bool_decide _); [|apply keeps_ret].
  apply keeps_bind; [apply keeps_put_manager|]. intros _.
  destruct (downlink_model self) as [model|]; [|apply keeps_raise].
  apply keeps_bind; [apply keeps_model_open|]. intros _.
  apply keeps_bind; [apply keeps_establish_downlink|]. intros _.
  apply keeps_get_manager_bind; intros self'. apply keeps_put_manager.
Qed.

Lemma keeps_add_view (l : loc) (r : str) (v : loc) : keeps (_add_view l r v).
Proof.
  unfold _add_view. apply keeps_get_view_bind; intros view.
  apply keeps_get_manager_bind; intros self.
  apply keeps_bind.
  { apply keeps_when. unfold _init_downlink_model.
    apply keeps_get_manager_bind; intros self'. apply keeps_put_manager. }
  intros _. apply keeps_get_manager_bind; intros self1.
  apply keeps_bind; [apply keeps_when, keeps_manager_open|]. intros _.
  apply keeps_get_manager_bind; intros self2. apply keeps_put_manager.
Qed.

Lemma keeps_register_downlink_view (l v : loc) : keeps (_register_downlink_view l v).
Proof.
  unfold _register_downlink_view. apply keeps_get_view_bind; intros view.
  apply keeps_get_conn_bind; intros self. apply keeps_any_from.
  apply keeps_bind; [|intros _; apply keeps_add_view].
  destruct (subscribers self !! route view); [apply keeps_ret | apply keeps_put_manager].
Qed.

Lemma keeps_subscribe (l v : loc) : keeps (_subscribe l v).
Proof.
  unfold _subscribe. apply keeps_get_conn_bind; intros self. apply keeps_any_from.
  apply keeps_bind; [apply keeps_when, keeps_open|]. intros _.
  apply keeps_bind; [apply keeps_register_downlink_view|]. intros _.
  unfold _execute_did_open. apply keeps_get_view_bind; intros view.
  apply keeps_put_view.
Qed.

End ReconnectFlags.

Section ReconnectClaim.

Import Connections.

Lemma get_connection_cases (host_uri scheme : str) (keep_linked keep_synced : bool)
    (w w1 : World) (r : result loc) :
  _get_connection host_uri scheme keep_linked keep_synced w = Some (r, w1) ->
  exists l, r = Ok l
    /\ views w1 = views w
    /\ (w1 = w
        \/ heap w !! l = None
           /\ heap w1 = <[l := _WSConnection_init host_uri scheme keep_linked keep_synced]>
                          (heap w)).
Proof.
  intros H. unfold _get_connection in H.
  assert (Hfresh : heap w !! fresh (dom (heap w)) = None).
  { apply not_elem_of_dom. apply is_fresh. }
  destruct (connections w !! host_uri) as [l0|].
  - destruct (heap w !! l0) as [c0|]; [|discriminate].
    destruct (bool_decide _); injection H as <- <-; eexists; eauto.
  - injection H as <- <-; eexists; eauto.
Qed.

(** C5 (as amended). [should_reconnect()] is [keep_linked OR
    keep_synced], where the two flags are those that [get_connection] was
    given when it constructed the connection: the flags of the view whose
    subscription made the connection.  Adding a view to the pool leaves
    the flags of every connection that was there as they were, whatever
    the flags of the view. *)
Theorem reconnect_flags_fixed_at_construction
    (v : loc) (view : _DownlinkView) (w w' : World) (r : result unit) :
  views w !! v = Some view ->
  _add_downlink_view v w = Some (r, w') ->
  (forall self, should_reconnect self = keep_linked self || keep_synced self)
  /\ (forall l c, heap w !! l = Some c ->
        exists c', heap w' !! l = Some c'
                   /\ keep_linked c' = keep_linked c
                   /\ keep_synced c' = keep_synced c
                   /\ should_reconnect c' = should_reconnect c)
  /\ (forall l c', heap w' !! l = Some c' -> heap w !! l = None ->
        keep_linked c' = _keep_linked view
        /\ keep_synced c' = _keep_synced view
        /\ should_reconnect c' = _keep_linked view || _keep_synced view).
Proof.
  intros Hview H. split; [reflexivity|].
  unfold _add_downlink_view in H. unfold bind at 1, get_view in H.
  rewrite Hview in H. unfold bind at 1 in H.
  destruct (_get_connection _ _ _ _ w) as [[r1 w1]|] eqn:G; [|discriminate].
  destruct (get_connection_cases _ _ _ _ _ _ _ G) as (l0 & -> & Hv & Hcase).
  assert (K : kept w1 w').
  { eapply (keeps_bind (put_view v _) (fun _ => _subscribe l0 v));
      [apply keeps_put_view | intros _; apply keeps_subscribe | exact H]. }
  destruct Hcase as [-> | [Hnew Hheap]].
  - split.
    + intros l c Hl. specialize (K l). rewrite Hl in K.
      inversion K as [? c' [F1 F2] E1 E2|]; subst.
      exists c'. unfold should_reconnect. rewrite F1, F2. auto.
    + intros l c' Hl' Hl. specialize (K l). rewrite Hl, Hl' in K. inversion K.
  - split.
    + intros l c Hl. specialize (K l). rewrite Hheap in K.
      rewrite lookup_insert_ne in K by (intros <-; congruence).
      rewrite Hl in K. inversion K as [? c' [F1 F2] E1 E2|]; subst.
      exists c'. unfold should_reconnect. rewrite F1, F2. auto.
    + intros l c' Hl' Hl. specialize (K l). rewrite Hheap, Hl' in K.
      destruct (decide (l0 = l)) as [<-|Hne].
      * rewrite lookup_insert_eq in K.
        inversion K as [? ? [F1 F2] E1 E2|]; subst. cbn in F1, F2.
        unfold should_reconnect. rewrite F1, F2. auto.
      * rewrite lookup_insert_ne, Hl in K by assumption. inversion K.
Qed.

Lemma reconnect_flags_fixed_witness :
  (forall self, should_reconnect self = keep_linked self || keep_synced self)
  /\ (forall l c, heap (world_of first_added) !! l = Some c ->
        exists c', heap (world_of both_added) !! l = Some c'
                   /\ keep_linked c' = keep_linked c
                   /\ keep_synced c' = keep_synced c
                   /\ should_reconnect c' = should_reconnect c)
  /\ (forall l c', heap (world_of both_added) !! l = Some c' ->
        heap (world_of first_added) !! l = None ->
        keep_linked c' = true
        /\ keep_synced c' = false
        /\ should_reconnect c' = true || false).
Proof.
  apply (reconnect_flags_fixed_at_construction 1%nat
           (mkView host (lit "ws") true false (lit "/unit/foo") (lit "info")
                   ValueKind None 0)
           (world_of first_added) (world_of both_added) (Ok tt)).
  - vm_compute. reflexivity.
  - vm_compute. reflexivity.
Defined.

(** C5 as stated fails.  After the view without persistence and then the
    view with [keep_linked] were added to the pool, the connection of the
    host is open ([IDLE]) and has both views as its subscribers; the OR of
    the flags of its subscribers is true, and [should_reconnect()] returns
    [False]. *)
Lemma should_reconnect_ignores_later_subscriber :
  exists (l : loc) (self : _WSConnection),
    both_added = Some (Ok (0%nat, 1%nat), world_of both_added)
    /\ pooled (world_of both_added) host = Some (l, self)
    /\ status self = _ConnectionStatus.IDLE
    /\ subscriber_views (world_of both_added) self
       = [mkView host (lit "ws") true false (lit "/unit/foo") (lit "info")
                 ValueKind (Some l) 1;
          mkView host (lit "ws") false false (lit "/unit/foo") (lit "info")
                 ValueKind (Some l) 1]
    /\ subscribers_want_reconnect (world_of both_added) self = true
    /\ should_reconnect self = false
    /\ should_reconnect self <> subscribers_want_reconnect (world_of both_added) self.
Proof.
  eexists _, _. split; [vm_compute; reflexivity|].
  split; [vm_compute; reflexivity|].
  repeat split; try (vm_compute; reflexivity).
  vm_compute. discriminate.
Qed.

Lemma get_connection_witness :
  (exists l w',
      _get_connection host (lit "ws") true false (world_of first_added)
      = Some (Ok l, w')
      /\ w' = world_of first_added
      /\ pooled (world_of first_added) host = Some (l, first_connection)
      /\ status first_connection = _ConnectionStatus.IDLE)
  /\ (exists l w',
        _get_connection host (lit "ws") true false (empty_world BaseStrategy [])
        = Some (Ok l, w')
        /\ heap w' !! l = Some (_WSConnection_init host (lit "ws") true false)
        /\ connections w' !! host = Some l).
Proof.
  split.
  - destruct (get_connection_returns_pooled_or_new
                (world_of first_added) host (lit "ws") true false)
      as (l & w' & Hget & _ & _ & Hcase & _).
    + vm_compute. eexists. reflexivity.
    + exists l, w'. split; [exact Hget|].
      assert (Hp : pooled (world_of first_added) host = Some (0%nat, first_connection))
        by (vm_compute; reflexivity).
      assert (Hidle : status first_connection = _ConnectionStatus.IDLE)
        by (vm_compute; reflexivity).
      rewrite Hp, Hidle in Hcase.
      replace (bool_decide (_ConnectionStatus.IDLE = _ConnectionStatus.CLOSED))
        with false in Hcase by reflexivity.
      destruct Hcase as [Hl Hw]. subst l w'.
      split; [reflexivity|]. split; [exact Hp | exact Hidle].
  - destruct (get_connection_returns_pooled_or_new
                (empty_world BaseStrategy []) host (lit "ws") true false)
      as (l & w' & Hget & _ & _ & Hcase & _).
    + vm_compute. exact I.
    + exists l, w'. split; [exact Hget|].
      replace (pooled (empty_world BaseStrategy []) host)
        with (@None (loc * _WSConnection)) in Hcase by (vm_compute; reflexivity).
      destruct Hcase as (_ & Hnew & Hpool).
      split; [exact Hnew|]. rewrite Hpool. apply lookup_insert_eq.
Defined.

End ReconnectClaim.

(* ===================================================================== *)
(** * Properties of the value downlink view *)
(* ===================================================================== *)

Section ViewProperties.

Import Downlinks.

(** C9, as the code has it.  On a view that is not open, [get] (with
    either value of [wait_sync]) and [set] raise [RuntimeError] at once
    and leave the client, every view, every model and every connection as
    they were.  On an open view whose model is attached,
    [get(wait_sync=False)] returns the current value of that model, and
    leaves the store as it was; and on an open view, the client having
    started, [set(value)] returns without an error after it has submitted
    the sending of [CommandMessage(node_uri, lane_uri, value)] to the loop
    of the client. *)
Theorem view_get_set
    (Connection : Type)
    (before_started : Store Connection -> Outcome (option Future) * Store Connection)
    (st : Store Connection) (self : loc) (view : ValueDownlinkView) :
  view_objs st !! self = Some view ->
  (is_open view = false ->
     forall (wait_sync : bool) (new_value : PyObj),
       get before_started self wait_sync st = (Raises RuntimeError, st)
       /\ set before_started self new_value st = (Raises RuntimeError, st))
  /\ (is_open view = true ->
        forall m current,
          model view = Some m -> model_objs st !! m = Some current ->
          get before_started self false st = (Returns (value current), st))
  /\ (is_open view = true -> has_started (client st) = true ->
        forall new_value : PyObj,
          set before_started self new_value st
          = (Returns tt,
             mkStore (mkClient true
                        (scheduled (client st)
                         ++ [send_message self
                               (CommandMessage (node_uri view) (lane_uri view) new_value)]))
                     (view_objs st) (model_objs st) (connection_objs st))).
Proof.
  intros Hview. repeat split.
  - unfold get. rewrite Hview, H. reflexivity.
  - unfold set. rewrite Hview, H. reflexivity.
  - intros Hopen m current Hm Hmodel.
    unfold get. rewrite Hview, Hopen, Hm, Hmodel. reflexivity.
  - intros Hopen Hstarted new_value.
    unfold set, schedule_task. rewrite Hview, Hopen, Hstarted. reflexivity.
Qed.

Lemma view_get_set_witness :
  (forall (wait_sync : bool) (new_value : PyObj),
      get refuse_before_started 0%nat wait_sync example_store
      = (Raises RuntimeError, example_store)
      /\ set refuse_before_started 0%nat new_value example_store
         = (Raises RuntimeError, example_store))
  /\ get refuse_before_started 1%nat false example_store
     = (Returns (PyInt 42), example_store)
  /\ fst (set refuse_before_started 1%nat (PyInt 7) example_store) = Returns tt
  /\ scheduled (client (snd (set refuse_before_started 1%nat (PyInt 7) example_store)))
     = [add_downlink_view 1%nat;
        send_message 1%nat (CommandMessage (Some (lit "/unit/foo")) (Some (lit "info"))
                                           (PyInt 7))].
Proof.
  split; [|split].
  - apply (view_get_set unit refuse_before_started example_store 0%nat
             (mkView (Some (lit "ws://localhost:9001")) (Some (lit "/unit/foo"))
                     (Some (lit "info")) None false false None None));
      reflexivity.
  - apply (view_get_set unit refuse_before_started example_store 1%nat
             (mkView (Some (lit "ws://localhost:9001")) (Some (lit "/unit/foo"))
                     (Some (lit "info")) None true true (Some 0%nat) (Some 0%nat))
             ltac:(reflexivity) : _ /\ _) with (m := 0%nat)
             (current := mkModel (Some (lit "ws://localhost:9001")) (Some (lit "/unit/foo"))
                                 (Some (lit "info")) (Some 0%nat) (PyInt 42) true true);
      reflexivity.
  - destruct (view_get_set unit refuse_before_started example_store 1%nat
             (mkView (Some (lit "ws://localhost:9001")) (Some (lit "/unit/foo"))
                     (Some (lit "info")) None true true (Some 0%nat) (Some 0%nat))
             ltac:(reflexivity)) as (_ & _ & Hset).
    rewrite (Hset eq_refl eq_refl (PyInt 7)). split; reflexivity.
Defined.

(** C9 fails as the claim states it: [open] leaves the view open and
    only submits [add_downlink_view], the coroutine that attaches the
    model; a [get] made before that coroutine has run finds the view open
    and its model [None], and raises [AttributeError] where the claim has
    it return the value of the model. *)
Lemma get_on_open_view_without_model :
  fst (ViewLifecycle.open refuse_before_started 0%nat example_store) = Returns 0%nat
  /\ (is_open <$> view_objs (snd (ViewLifecycle.open refuse_before_started 0%nat
                                                      example_store)) !! 0%nat)
     = Some true
  /\ fst (get refuse_before_started 0%nat false
             (snd (ViewLifecycle.open refuse_before_started 0%nat example_store)))
     = Raises AttributeError.
Proof. vm_compute. repeat split. Qed.

End ViewProperties.

(* ===================================================================== *)
(** * More properties of swimai/recon/utils.py *)
(* ===================================================================== *)

Section MoreReconUtils.

Import ReconUtils.

Lemma is_space_str (c : N) : is_space (PyStr [c]) = Ok (space_test c).
Proof. reflexivity. Qed.

Lemma is_digit_str (c : N) : is_digit (PyStr [c]) = Ok (digit_test c).
Proof.
  unfold is_digit, digit_test, py_between; cbn.
  change (ord "0") with 48; change (ord "9") with 57.
  destruct (48 <=? Z.of_N c); reflexivity.
Qed.

(** X1. Whatever [head()] returns can be handed to the classifiers: at
    every position of every message, [head()] returns the character there
    or, at or past the end, the empty string; on it [is_space],
    [is_digit], [is_ident_start_char] and [is_ident_char] return (none
    raises), with the class of that character, and [False] on the empty
    string of the end of input. *)
Theorem classifiers_on_head (message : str) (i : nat) :
  InputMessage.head (InputMessage.mk message (Z.of_nat i))
  = Ok (Spec.char_at message i)
  /\ is_space (PyStr (Spec.char_at message i))
     = Ok match nth_error message i with Some c => space_test c | None => false end
  /\ is_digit (PyStr (Spec.char_at message i))
     = Ok match nth_error message i with Some c => digit_test c | None => false end
  /\ is_ident_start_char (PyStr (Spec.char_at message i))
     = Ok match nth_error message i with Some c => start_test c | None => false end
  /\ is_ident_char (PyStr (Spec.char_at message i))
     = Ok match nth_error message i with Some c => continue_test c | None => false end.
Proof.
  split; [apply head_at|]. unfold Spec.char_at.
  destruct (nth_error message i) as [c|].
  - repeat split.
    + apply is_digit_str.
    + apply is_ident_start_char_str.
    + apply is_ident_char_str.
  - repeat split.
Qed.

(** X2. A string of two or more characters is no character: on it every
    classifier raises [TypeError] (from [ord]), and so does [to_ord]. *)
Theorem classifiers_raise_on_long_string (s : str) :
  (2 <= length s)%nat ->
  to_ord (PyStr s) = Raise TypeError
  /\ is_space (PyStr s) = Raise TypeError
  /\ is_digit (PyStr s) = Raise TypeError
  /\ is_ident_start_char (PyStr s) = Raise TypeError
  /\ is_ident_char (PyStr s) = Raise TypeError.
Proof.
  intros Hlen. destruct s as [|a [|b s]]; cbn in Hlen; try lia.
  repeat split.
Qed.

Lemma classifiers_raise_on_long_string_witness :
  to_ord (PyStr (lit "ab")) = Raise TypeError
  /\ is_space (PyStr (lit "ab")) = Raise TypeError
  /\ is_digit (PyStr (lit "ab")) = Raise TypeError
  /\ is_ident_start_char (PyStr (lit "ab")) = Raise TypeError
  /\ is_ident_char (PyStr (lit "ab")) = Raise TypeError.
Proof. apply (classifiers_raise_on_long_string (lit "ab")). cbn. lia. Defined.

(** X3. The character classes, as the classifiers decide them on a
    character [c]: a digit and an identifier start character are
    identifier characters; a digit does not start an identifier; a space
    (blank or tab) is neither a digit nor an identifier character; and an
    identifier character is [-], a digit or a start character. *)
Theorem character_classes (c : N) :
  exists space digit start continue : bool,
    is_space (PyStr [c]) = Ok space
    /\ is_digit (PyStr [c]) = Ok digit
    /\ is_ident_start_char (PyStr [c]) = Ok start
    /\ is_ident_char (PyStr [c]) = Ok continue
    /\ (space = true <-> Z.of_N c = ord " " \/ Z.of_N c = 9)
    /\ (digit = true <-> ord "0" <= Z.of_N c <= ord "9")
    /\ (digit = true -> start = false /\ continue = true)
    /\ (start = true -> continue = true)
    /\ (space = true -> digit = false /\ continue = false)
    /\ (continue = true <-> Z.of_N c = ord "-" \/ digit = true \/ start = true).
Proof.
  exists (space_test c), (digit_test c), (start_test c), (continue_test c).
  split; [apply is_space_str|]. split; [apply is_digit_str|].
  split; [apply is_ident_start_char_str|]. split; [apply is_ident_char_str|].
  unfold space_test, digit_test, continue_test, start_test.
  change (ord " ") with 32; change (ord "0") with 48; change (ord "9") with 57;
    change (ord "-") with 45.
  generalize (Z.of_N c); intros z. cbv zeta.
  destruct (Z.eqb_spec z 32), (Z.eqb_spec z 9), (Z.eqb_spec z 45), (Z.eqb_spec z 95),
    (Z.leb_spec 48 z), (Z.leb_spec z 57), (Z.leb_spec 65 z), (Z.leb_spec z 90),
    (Z.leb_spec 97 z), (Z.leb_spec z 122); try lia; cbn;
    repeat split; intros; try discriminate; try lia; try tauto; auto.
Qed.

End MoreReconUtils.

Section OutputMessageProperties.

Import OutputMessage.

(** X4. [OutputMessage]: [create(chars)] holds exactly [chars] (nothing
    for [None] or the empty string); [append] adds its argument at the end,
    so the size grows by the length of the argument; and [last_char] is
    the last character of the message, the empty string exactly when the
    message is empty: after an [append] of a string that is not empty it
    is the last character of that string. *)
Theorem output_message_append (self : t) (chars : str) :
  value (create (Some chars)) = chars
  /\ value (create None) = []
  /\ value (append self chars) = value self ++ chars
  /\ size (append self chars) = size self + Z.of_nat (length chars)
  /\ last_char (append self chars)
     = match last chars with
       | Some c => [c]
       | None => last_char self
       end
  /\ (last_char self = [] <-> value self = []).
Proof.
  split; [destruct chars; reflexivity|].
  split; [reflexivity|]. split; [reflexivity|].
  split; [|split; [|split]].
  - unfold size, append, value; cbn [message]. rewrite length_app. lia.
  - destruct self as [m]; cbv [last_char size append message].
    destruct chars as [|c chars]; [now rewrite app_nil_r|].
    rewrite length_app. cbn [length].
    destruct (Z.ltb_spec 0 (Z.of_nat (length m + S (length chars))));
      [|lia].
    rewrite last_app. cbn [last]. destruct (last (c :: chars)) eqn:E; [reflexivity|].
    apply last_None in E. discriminate.
  - destruct self as [[|c l]]; cbv [last_char size value message]; [reflexivity|].
    cbn [length]. destruct (Z.ltb_spec 0 (Z.of_nat (S (length l)))); [|lia].
    destruct (last (c :: l)) eqn:E; [discriminate|].
    apply last_None in E. discriminate.
  - destruct self as [m]; cbv [last_char size value message]. intros ->. reflexivity.
Qed.

End OutputMessageProperties.

(* ===================================================================== *)
(** * More properties of the Recon writer *)
(* ===================================================================== *)

Section MoreWriterProperties.

Context {float_str : FloatStr}.
Import Writers.

Lemma ident_test_spec (value : str) :
  match value with
  | [] => false
  | first :: rest => start_test first && forallb continue_test rest
  end = true <-> Spec.ident value.
Proof.
  destruct value as [|first rest]; cbn [Spec.ident]; [split; [discriminate|tauto]|].
  rewrite andb_true_iff, start_test_spec, forallb_forall, Forall_forall.
  split; intros [H1 H2]; (split; [exact H1|]); intros c Hc;
    apply continue_test_spec, H2; now apply list_elem_of_In.
Qed.

Lemma StringWriter_write_eq (value : str) :
  StringWriter_write value = OutputMessage.mk (dquote ++ value ++ dquote).
Proof.
  unfold StringWriter_write. destruct value as [|c value]; reflexivity.
Qed.

Lemma IdentWriter_write_eq (value : str) :
  IdentWriter_write value = OutputMessage.mk value.
Proof. destruct value; reflexivity. Qed.

(** X5. [write_text] never raises.  A text that is an identifier is
    written as it is; every other text, the empty one too, is written
    between two double quotes, its characters unchanged (nothing is
    escaped). *)
Theorem write_text_output (value : str) :
  exists output, write_text value = Ok output
    /\ (Spec.ident value -> OutputMessage.message output = value)
    /\ (~ Spec.ident value ->
        OutputMessage.message output = dquote ++ value ++ dquote).
Proof.
  unfold write_text. rewrite is_ident_eval, result_bind_Ok.
  pose proof (ident_test_spec value) as Hspec.
  destruct (match value with [] => false | _ => _ end).
  - eexists; split; [reflexivity|]. rewrite IdentWriter_write_eq. cbn.
    split; [reflexivity|]. intros Hn. exfalso. apply Hn, Hspec. reflexivity.
  - eexists; split; [reflexivity|]. rewrite StringWriter_write_eq. cbn.
    split; [|reflexivity]. intros Hi. apply Hspec in Hi. discriminate.
Qed.

Lemma write_text_Ok (value : str) : exists output, write_text value = Ok output.
Proof.
  unfold write_text. rewrite is_ident_eval, result_bind_Ok.
  destruct (match value with [] => false | _ => _ end); eexists; reflexivity.
Qed.

Lemma BlockWriter_loop_outcome (items : list Item) :
  Forall write_item_outcome items ->
  forall output first in_braces,
    if forallb writable_item items
    then exists o, BlockWriter_loop write_item items output first in_braces = Ok o
    else BlockWriter_loop write_item items output first in_braces = Raise AttributeError.
Proof.
  induction 1 as [|item items Hitem _ IH]; intros output first in_braces.
  - cbn. destruct in_braces; eexists; reflexivity.
  - cbn [forallb BlockWriter_loop]. unfold write_item_outcome in Hitem.
    destruct (writable_item item).
    + destruct Hitem as [text Htext]. cbn [andb].
      destruct (match item with Attr _ _ => true | ItemValue v => _ | Slot _ _ => false end).
      * rewrite Htext, result_bind_Ok. apply IH.
      * destruct (if negb first then _ else _) as [output' in_braces'].
        rewrite Htext, result_bind_Ok. apply IH.
    + cbn [andb].
      destruct (match item with Attr _ _ => true | ItemValue v => _ | Slot _ _ => false end).
      * rewrite Hitem. reflexivity.
      * destruct (if negb first then _ else _) as [output' in_braces'].
        rewrite Hitem. reflexivity.
Qed.

Lemma write_value_write_item_outcome :
  (forall v, write_value_outcome v) /\ (forall i, write_item_outcome i).
Proof.
  assert (H : forall v, write_value_outcome v).
  { apply (Value_Item_ind write_value_outcome write_item_outcome).
    - (* Record *)
      intros items Hitems. unfold write_value_outcome. cbn [writable write_value].
      destruct items as [|item items].
      + cbn. exists None. repeat split.
      + replace (0 <? Z.of_nat (length (item :: items))) with true
          by (cbn [length]; symmetry; apply Z.ltb_lt; lia).
        unfold BlockWriter_write, Structs.get_items.
        pose proof (BlockWriter_loop_outcome _ Hitems (OutputMessage.create None)
                      true false) as Hloop.
        destruct (forallb writable_item (item :: items)).
        * destruct Hloop as [o ->]. exists (Some o). split; [reflexivity|].
          split; discriminate.
        * rewrite Hloop. reflexivity.
    - intros s. unfold write_value_outcome. cbn.
      destruct (write_text_Ok s) as [o ->]. exists (Some o).
      split; [reflexivity|]. split; discriminate.
    - intros n. unfold write_value_outcome. cbn. eexists. split; [reflexivity|].
      split; discriminate.
    - intros b. unfold write_value_outcome. cbn. eexists. split; [reflexivity|].
      split; discriminate.
    - unfold write_value_outcome. cbn. exists None. repeat split.
    - unfold write_value_outcome. cbn. eexists. split; [reflexivity|].
      split; discriminate.
    - (* ItemValue *)
      intros v Hv. unfold write_item_outcome, write_value_outcome in *.
      cbn [writable_item write_item].
      destruct (writable v).
      + destruct Hv as (o & -> & Hnone). rewrite result_bind_Ok.
        destruct (writes_nothing v); cbn [negb andb].
        * destruct o as [o|]; [|reflexivity].
          destruct Hnone as [_ Hnone]. discriminate (Hnone eq_refl).
        * destruct o as [o|]; [eexists; reflexivity|].
          destruct Hnone as [Hnone _]. discriminate (Hnone eq_refl).
      + rewrite andb_false_r. rewrite Hv. reflexivity.
    - (* Attr *)
      intros key value Hk Hv. unfold write_item_outcome, write_value_outcome in *.
      cbn [writable_item write_item]. unfold AttrWriter_write.
      destruct (writable key); cbn [andb].
      + destruct Hk as (ko & -> & _). rewrite result_bind_Ok.
        destruct (writable value).
        * destruct Hv as (vo & Hvo & _).
          destruct (negb (Structs.is_extant value)); [|eexists; reflexivity].
          rewrite Hvo, result_bind_Ok.
          destruct (Structs.size value =? 0); eexists; reflexivity.
        * assert (He : Structs.is_extant value = false)
            by (destruct value; try reflexivity; discriminate Hv).
          rewrite He. cbn [negb]. rewrite Hv. reflexivity.
      + rewrite Hk. reflexivity.
    - (* Slot *)
      intros key value Hk Hv. unfold write_item_outcome, write_value_outcome in *.
      cbn [writable_item write_item]. unfold SlotWriter_write.
      destruct (writable key); cbn [andb].
      + destruct Hk as (ko & -> & _). rewrite result_bind_Ok.
        destruct (writable value).
        * destruct Hv as (vo & -> & _). eexists. reflexivity.
        * rewrite Hv. reflexivity.
      + rewrite Hk. reflexivity. }
  split; [exact H|].
  intros i. destruct i as [v|key value|key value].
  - pose proof (H v) as Hv. unfold write_item_outcome, write_value_outcome in *.
    cbn [writable_item write_item].
    destruct (writable v).
    + destruct Hv as (o & -> & Hnone). rewrite result_bind_Ok.
      destruct (writes_nothing v); cbn [negb andb].
      * destruct o as [o|]; [|reflexivity].
        destruct Hnone as [_ Hnone]. discriminate (Hnone eq_refl).
      * destruct o as [o|]; [eexists; reflexivity|].
        destruct Hnone as [Hnone _]. discriminate (Hnone eq_refl).
    + rewrite andb_false_r. rewrite Hv. reflexivity.
  - pose proof (H key) as Hk. pose proof (H value) as Hv.
    unfold write_item_outcome, write_value_outcome in *.
    cbn [writable_item write_item]. unfold AttrWriter_write.
    destruct (writable key); cbn [andb].
    + destruct Hk as (ko & -> & _). rewrite result_bind_Ok.
      destruct (writable value).
      * destruct Hv as (vo & Hvo & _).
        destruct (negb (Structs.is_extant value)); [|eexists; reflexivity].
        rewrite Hvo, result_bind_Ok.
        destruct (Structs.size value =? 0); eexists; reflexivity.
      * assert (He : Structs.is_extant value = false)
          by (destruct value; try reflexivity; discriminate Hv).
        rewrite He. cbn [negb]. rewrite Hv. reflexivity.
    + rewrite Hk. reflexivity.
  - pose proof (H key) as Hk. pose proof (H value) as Hv.
    unfold write_item_outcome, write_value_outcome in *.
    cbn [writable_item write_item]. unfold SlotWriter_write.
    destruct (writable key); cbn [andb].
    + destruct Hk as (ko & -> & _). rewrite result_bind_Ok.
      destruct (writable value).
      * destruct Hv as (vo & -> & _). eexists. reflexivity.
      * rewrite Hv. reflexivity.
    + rewrite Hk. reflexivity.
Qed.

(** X6. When the writer fails.  [write_value] raises, and then it raises
    [AttributeError], exactly on the values in which some record holds,
    among its items, a bare [Extant] or a bare record without items;
    on every other value it returns.  It returns [None] rather than a
    text exactly for [Extant] and for a record without items.  The same
    holds of [write_item], which never returns [None]. *)
Theorem writer_fails_on_bare_extant (v : Value) (i : Item) :
  (if writable v
   then exists o, write_value v = Ok o /\ (o = None <-> writes_nothing v = true)
   else write_value v = Raise AttributeError)
  /\ (if writable_item i
      then exists text, write_item i = Ok text
      else write_item i = Raise AttributeError).
Proof.
  destruct write_value_write_item_outcome as [Hv Hi].
  split; [apply Hv | apply Hi].
Qed.

End MoreWriterProperties.

Section BlockWriterProperties.

Context {float_str : FloatStr}.
Import Writers.

Lemma append_item_text (output : OutputMessage.t) (text : str) :
  (if truthy (PyStr text) then OutputMessage.append output text else output)
  = OutputMessage.mk (OutputMessage.message output ++ text).
Proof.
  destruct output as [m]. destruct text as [|c text]; cbn.
  - now rewrite app_nil_r.
  - reflexivity.
Qed.

Lemma inline_item_match (item : Item) :
  match item with
  | Attr _ _ => true
  | ItemValue v => negb (Structs.is_record v)
  | Slot _ _ => false
  end = inline_item item.
Proof. reflexivity. Qed.

(** The loop of [BlockWriter.write] over items written in line. *)
Lemma BlockWriter_loop_inline (items : list Item) (texts : list str) :
  written items texts ->
  forallb inline_item items = true ->
  forall rest output first in_braces,
    BlockWriter_loop write_item (items ++ rest) output first in_braces
    = BlockWriter_loop write_item rest
        (OutputMessage.mk (OutputMessage.message output ++ concat texts))
        first in_braces.
Proof.
  induction 1 as [|item text items texts Htext _ IH]; intros Hinline rest output first in_braces.
  - cbn. destruct output as [m]. cbn. now rewrite app_nil_r.
  - cbn [forallb] in Hinline. apply andb_true_iff in Hinline as [Hitem Hitems].
    cbn [app BlockWriter_loop]. rewrite inline_item_match, Hitem, Htext, result_bind_Ok.
    rewrite append_item_text, (IH Hitems). cbn [OutputMessage.message concat].
    now rewrite app_assoc.
Qed.

(** The loop over items written apart (slots and records), once the first
    of them has been written. *)
Lemma BlockWriter_loop_apart (items : list Item) (texts : list str) :
  written items texts ->
  forallb (fun item => negb (inline_item item)) items = true ->
  forall output in_braces,
    BlockWriter_loop write_item items output false in_braces
    = Ok (closed in_braces
            (OutputMessage.message output
             ++ concat (map (fun text => lit "," ++ text) texts))).
Proof.
  induction 1 as [|item text items texts Htext _ IH]; intros Hapart output in_braces.
  - cbn. rewrite app_nil_r. destruct output as [m], in_braces; reflexivity.
  - cbn [forallb] in Hapart. apply andb_true_iff in Hapart as [Hitem Hitems].
    apply negb_true_iff in Hitem.
    cbn [BlockWriter_loop]. rewrite inline_item_match, Hitem. cbn [negb].
    rewrite Htext, result_bind_Ok, append_item_text, (IH Hitems).
    cbn [OutputMessage.message OutputMessage.append map concat].
    now rewrite <- !app_assoc.
Qed.

Lemma comma_separated_cons (text : str) (texts : list str) :
  comma_separated (text :: texts)
  = text ++ concat (map (fun t => lit "," ++ t) texts).
Proof.
  revert text; induction texts as [|t texts IH]; intros text.
  - cbn. now rewrite app_nil_r.
  - change (comma_separated (text :: t :: texts))
      with (text ++ lit "," ++ comma_separated (t :: texts)).
    rewrite IH. cbn [map concat]. now rewrite <- !app_assoc.
Qed.

Lemma opens_brace_spec (text : str) :
  (0 <? OutputMessage.size (OutputMessage.mk text))
  && negb (bool_decide (OutputMessage.last_char (OutputMessage.mk text) = lit "("))
  = opens_brace text.
Proof.
  unfold opens_brace, OutputMessage.last_char, OutputMessage.size.
  cbn [OutputMessage.message].
  destruct text as [|c text]; [reflexivity|].
  cbn [length]. destruct (Z.ltb_spec 0 (Z.of_nat (S (length text)))); [|lia].
  rewrite (bool_decide_eq_false_2 (c :: text = [])) by discriminate. cbn [negb andb].
  destruct (last (c :: text)) as [d|] eqn:E.
  - f_equal. apply bool_decide_ext. change (lit "(") with [40%N].
    split; intros H0; congruence.
  - apply last_None in E. discriminate.
Qed.

(** X7. A record whose items are all attributes or values that are not
    records is written as the texts of its items one after the other,
    with nothing between them: [Record[Text("b"), Num(1)]] is written
    [b1]. *)
Theorem inline_items_are_concatenated (items : list Item) (texts : list str) :
  written items texts ->
  forallb inline_item items = true ->
  write_value (Record items)
  = Ok match items with
       | [] => None
       | _ => Some (OutputMessage.mk (concat texts))
       end.
Proof.
  intros Hwritten Hinline. destruct items as [|item items]; [reflexivity|].
  cbn [write_value].
  replace (0 <? Z.of_nat (length (item :: items))) with true
    by (cbn [length]; symmetry; apply Z.ltb_lt; lia).
  unfold BlockWriter_write, Structs.get_items.
  rewrite <- (app_nil_r (item :: items)).
  rewrite (BlockWriter_loop_inline _ _ Hwritten Hinline). reflexivity.
Qed.

(** X8. A record of items written in line (its header) followed by a
    slot and further slots or records: the header is written first, and
    the slot and what follows it are separated by commas.  That group is
    put in braces exactly when the header wrote something that does not
    end in an opening parenthesis: [@tag{a:1,b:2}], but [a:1,b:2] for a
    record of two slots. *)
Theorem slots_are_comma_separated
    (header : list Item) (header_texts : list str) (key value : Value) (text : str)
    (others : list Item) (other_texts : list str) :
  written header header_texts ->
  forallb inline_item header = true ->
  write_item (Slot key value) = Ok text ->
  written others other_texts ->
  forallb (fun item => negb (inline_item item)) others = true ->
  write_value (Record (header ++ Slot key value :: others))
  = Ok (Some (OutputMessage.mk
                (if opens_brace (concat header_texts)
                 then concat header_texts ++ lit "{"
                      ++ comma_separated (text :: other_texts) ++ lit "}"
                 else concat header_texts ++ comma_separated (text :: other_texts)))).
Proof.
  intros Hheader Hinline Hslot Hothers Hapart.
  cbn [write_value].
  replace (0 <? Z.of_nat (length (header ++ Slot key value :: others))) with true
    by (rewrite length_app; cbn [length]; symmetry; apply Z.ltb_lt; lia).
  unfold BlockWriter_write, Structs.get_items.
  rewrite (BlockWriter_loop_inline _ _ Hheader Hinline).
  change (OutputMessage.message (OutputMessage.create None) ++ concat header_texts)
    with (concat header_texts).
  cbn [BlockWriter_loop negb]. rewrite opens_brace_spec, comma_separated_cons.
  destruct (opens_brace (concat header_texts)).
  - rewrite Hslot, result_bind_Ok, append_item_text.
    rewrite (BlockWriter_loop_apart _ _ Hothers Hapart).
    cbn [closed OutputMessage.message OutputMessage.append].
    now rewrite <- !app_assoc.
  - rewrite Hslot, result_bind_Ok, append_item_text.
    rewrite (BlockWriter_loop_apart _ _ Hothers Hapart).
    cbn [closed OutputMessage.message]. now rewrite <- !app_assoc.
Qed.

End BlockWriterProperties.

Lemma inline_items_are_concatenated_witness :
  @Writers.write_value no_float_str
    (Record [Attr (Text (lit "a")) Extant; ItemValue (Text (lit "b"));
             ItemValue (Num (NumInt 1))])
  = Ok (Some (OutputMessage.mk (lit "@ab1"))).
Proof.
  apply (@inline_items_are_concatenated no_float_str
           [Attr (Text (lit "a")) Extant; ItemValue (Text (lit "b"));
            ItemValue (Num (NumInt 1))]
           [lit "@a"; lit "b"; lit "1"]).
  - repeat constructor.
  - reflexivity.
Defined.

Lemma slots_are_comma_separated_witness :
  @Writers.write_value no_float_str
    (Record [Attr (Text (lit "tag")) Extant;
             Slot (Text (lit "a")) (Num (NumInt 1));
             Slot (Text (lit "b")) (Num (NumInt 2))])
  = Ok (Some (OutputMessage.mk (lit "@tag{a:1,b:2}")))
  /\ @Writers.write_value no_float_str
       (Record [Slot (Text (lit "a")) (Num (NumInt 1));
                Slot (Text (lit "b")) (Num (NumInt 2))])
     = Ok (Some (OutputMessage.mk (lit "a:1,b:2"))).
Proof.
  split.
  - apply (@slots_are_comma_separated no_float_str
             [Attr (Text (lit "tag")) Extant] [lit "@tag"]
             (Text (lit "a")) (Num (NumInt 1)) (lit "a:1")
             [Slot (Text (lit "b")) (Num (NumInt 2))] [lit "b:2"]).
    + repeat constructor.
    + reflexivity.
    + reflexivity.
    + repeat constructor.
    + reflexivity.
  - apply (@slots_are_comma_separated no_float_str [] []
             (Text (lit "a")) (Num (NumInt 1)) (lit "a:1")
             [Slot (Text (lit "b")) (Num (NumInt 2))] [lit "b:2"]).
    + constructor.
    + reflexivity.
    + reflexivity.
    + repeat constructor.
    + reflexivity.
Defined.

(* ===================================================================== *)
(** * More properties of the retry strategies *)
(* ===================================================================== *)

Section MoreRetryProperties.

Import Connections Retries.

Lemma interval_retry_n (limit delay : Z) (n : nat) :
  forall k : nat,
    retry_n n (IntervalStrategy (Some limit) delay (Z.of_nat k))
    = (repeat true (Nat.min n (Z.to_nat limit - k))
         ++ repeat false (n - Nat.min n (Z.to_nat limit - k)),
       repeat delay (Nat.min n (Z.to_nat limit - k)),
       IntervalStrategy (Some limit) delay
                        (Z.of_nat (k + Nat.min n (Z.to_nat limit - k)))).
Proof.
  induction n as [|n IH]; intros k.
  - cbn. now rewrite Nat.add_0_r.
  - cbn [retry_n retry].
    destruct (Z.gtb_spec limit (Z.of_nat k)) as [Hlt|Hge].
    + cbn [after returned sleeps].
      replace (Z.of_nat k + 1) with (Z.of_nat (S k)) by lia. rewrite IH.
      replace (Z.to_nat limit - k)%nat with (S (Z.to_nat limit - S k)) by lia.
      cbn [Nat.min Nat.sub repeat app].
      now rewrite Nat.add_succ_r, Nat.add_succ_l.
    + cbn [after returned sleeps]. rewrite IH.
      replace (Z.to_nat limit - k)%nat with 0%nat by lia.
      rewrite !Nat.min_0_r. cbn. rewrite Nat.sub_0_r. reflexivity.
Qed.

Lemma interval_retry_n_unlimited (delay : Z) (n : nat) :
  forall retries : Z,
    retry_n n (IntervalStrategy None delay retries)
    = (repeat true n, repeat delay n,
       IntervalStrategy None delay (retries + Z.of_nat n)).
Proof.
  induction n as [|n IH]; intros retries.
  - cbn. now rewrite Z.add_0_r.
  - cbn [retry_n retry after returned sleeps]. rewrite IH.
    cbn [repeat app]. replace (retries + 1 + Z.of_nat n) with (retries + Z.of_nat (S n)) by lia.
    reflexivity.
Qed.

(** X9. [IntervalStrategy] with a limit, called again and again from new:
    the first [retries_limit] calls of [retry] sleep [delay] each and
    return [True], every later call returns [False] at once, without a
    sleep and without counting (a negative limit allows no retry).
    Without a limit every call sleeps and returns [True]. *)
Theorem interval_allows_limit_retries (limit delay : Z) (n : nat) :
  retry_n n (IntervalStrategy_init (Some limit) delay)
  = (repeat true (Nat.min n (Z.to_nat limit))
       ++ repeat false (n - Z.to_nat limit),
     repeat delay (Nat.min n (Z.to_nat limit)),
     IntervalStrategy (Some limit) delay (Z.of_nat (Nat.min n (Z.to_nat limit))))
  /\ retry_n n (IntervalStrategy_init None delay)
     = (repeat true n, repeat delay n, IntervalStrategy None delay (Z.of_nat n)).
Proof.
  split.
  - unfold IntervalStrategy_init. change 0 with (Z.of_nat 0).
    rewrite interval_retry_n. rewrite Nat.sub_0_r, Nat.add_0_l.
    replace (n - Nat.min n (Z.to_nat limit))%nat with (n - Z.to_nat limit)%nat by lia.
    reflexivity.
  - unfold IntervalStrategy_init. now rewrite interval_retry_n_unlimited.
Qed.

Lemma exponential_retry_n (limit max_interval : Z) (n : nat) :
  forall k : nat,
    retry_n n (ExponentialStrategy (Some limit) max_interval (Z.of_nat k))
    = (repeat true (Nat.min n (Z.to_nat (limit + 1) - k))
         ++ repeat false (n - Nat.min n (Z.to_nat (limit + 1) - k)),
       map (fun j => Z.min (2 ^ Z.of_nat j) max_interval)
           (seq k (Nat.min n (Z.to_nat (limit + 1) - k))),
       ExponentialStrategy (Some limit) max_interval
                           (Z.of_nat (k + Nat.min n (Z.to_nat (limit + 1) - k)))).
Proof.
  induction n as [|n IH]; intros k.
  - cbn. now rewrite Nat.add_0_r.
  - cbn [retry_n retry].
    destruct (Z.geb_spec limit (Z.of_nat k)) as [Hle|Hgt].
    + cbn [after returned sleeps].
      replace (Z.of_nat k + 1) with (Z.of_nat (S k)) by lia. rewrite IH.
      replace (Z.to_nat (limit + 1) - k)%nat
        with (S (Z.to_nat (limit + 1) - S k)) by lia.
      cbn [Nat.min Nat.sub repeat app seq map].
      now rewrite Nat.add_succ_r, Nat.add_succ_l.
    + cbn [after returned sleeps]. rewrite IH.
      replace (Z.to_nat (limit + 1) - k)%nat with 0%nat by lia.
      rewrite !Nat.min_0_r. cbn. rewrite Nat.sub_0_r. reflexivity.
Qed.

(** X10. [ExponentialStrategy] with a limit, called again and again from
    new: the first [retries_limit + 1] calls of [retry] return [True], one
    more than the limit, and the call number [j] (from 0) sleeps
    [min(2 ** j, max_interval)]: the sleeps double until they reach
    [max_interval] and never exceed it.  Every later call returns [False]
    at once. *)
Theorem exponential_allows_limit_plus_one (limit max_interval : Z) (n : nat) :
  let allowed := Nat.min n (Z.to_nat (limit + 1)) in
  let sleeps := map (fun j => Z.min (2 ^ Z.of_nat j) max_interval) (seq 0 allowed) in
  retry_n n (ExponentialStrategy_init (Some limit) max_interval)
  = (repeat true allowed ++ repeat false (n - Z.to_nat (limit + 1)),
     sleeps,
     ExponentialStrategy (Some limit) max_interval (Z.of_nat allowed))
  /\ Forall (fun s => s <= max_interval) sleeps
  /\ (forall j, (j < allowed)%nat -> 2 ^ Z.of_nat j <= max_interval ->
                nth_error sleeps j = Some (2 ^ Z.of_nat j)).
Proof.
  intros allowed sleeps. split; [|split].
  - unfold ExponentialStrategy_init. change 0 with (Z.of_nat 0).
    rewrite exponential_retry_n. rewrite Nat.sub_0_r, Nat.add_0_l.
    subst sleeps allowed.
    replace (n - Nat.min n (Z.to_nat (limit + 1)))%nat
      with (n - Z.to_nat (limit + 1))%nat by lia.
    reflexivity.
  - subst sleeps. apply Forall_forall. intros s Hs.
    apply list_elem_of_In, in_map_iff in Hs. destruct Hs as (j & <- & _). lia.
  - intros j Hj Hpow. subst sleeps.
    rewrite nth_error_map, nth_error_seq.
    destruct (Nat.ltb_spec j allowed); [|lia]. cbn. f_equal. lia.
Qed.

End MoreRetryProperties.

(* ===================================================================== *)
(** * Opening a connection *)
(* ===================================================================== *)

Section OpenProperties.

Import Connections.

Lemma _open_loop_not_connecting (script : list bool) (self : _WSConnection)
    (strategy : RetryStrategy) (log : list Z) :
  status self <> _ConnectionStatus.CONNECTING ->
  _open_loop script self strategy log = Some (mkOpened (Ok tt) self strategy log script).
Proof.
  intros H. destruct script; cbn [_open_loop];
    now rewrite bool_decide_eq_false_2.
Qed.

Lemma retries_of_reset (strategy : RetryStrategy) : retries_of (reset strategy) = 0.
Proof. destruct strategy; reflexivity. Qed.

Lemma retry_refused (strategy : RetryStrategy) :
  returned (retry strategy) = false ->
  after (retry strategy) = strategy /\ sleeps (retry strategy) = [].
Proof.
  destruct strategy as [|limit delay retries|limit max_interval retries]; cbn.
  - auto.
  - destruct (match limit with Some l => l >? retries | None => true end);
      [discriminate | auto].
  - destruct (match limit with Some l => l >=? retries | None => true end);
      [discriminate | auto].
Qed.

(** What the loop of [_open] leaves behind. *)
Lemma _open_loop_outcome (script : list bool) :
  forall self strategy log o,
    status self = _ConnectionStatus.CONNECTING ->
    _open_loop script self strategy log = Some o ->
    (open_result o = Ok tt
     /\ open_connection o
        = set_status _ConnectionStatus.IDLE
            (set_websocket
               (Some (mkWebSocket (host_uri self) (bool_decide (scheme self = lit "wss")) []))
               self)
     /\ retries_of (open_strategy o) = 0
     \/ open_result o = Raise OSError
        /\ open_connection o = set_status _ConnectionStatus.CLOSED self)
    /\ (exists used, script = used ++ open_handshakes o /\ used <> [])
    /\ (exists more, open_slept o = log ++ more).
Proof.
  induction script as [|outcome script IH]; intros self strategy log o Hst H;
    cbn [_open_loop] in H; rewrite bool_decide_eq_true_2 in H by exact Hst;
    [discriminate|].
  destruct outcome.
  - rewrite _open_loop_not_connecting in H by (cbn; discriminate).
    injection H as <-. cbn. split; [|split].
    + left. split; [reflexivity|]. split; [reflexivity | apply retries_of_reset].
    + exists [true]. split; [reflexivity | discriminate].
    + exists []. now rewrite app_nil_r.
  - destruct (should_reconnect self).
    + destruct (returned (retry strategy)) eqn:Hr.
      * apply IH in H; [|exact Hst]. destruct H as (Hcase & (used & -> & _) & (more & ->)).
        split; [exact Hcase|]. split.
        -- exists (false :: used). split; [reflexivity | discriminate].
        -- exists (sleeps (retry strategy) ++ more). now rewrite app_assoc.
      * injection H as <-. cbn. split; [|split].
        -- right. split; reflexivity.
        -- exists [false]. split; [reflexivity | discriminate].
        -- exists (sleeps (retry strategy)). reflexivity.
    + injection H as <-. cbn. split; [|split].
      * right. split; reflexivity.
      * exists [false]. split; [reflexivity | discriminate].
      * exists []. now rewrite app_nil_r.
Qed.

Lemma set_status_closed_again (c : _WSConnection) :
  status c = _ConnectionStatus.CLOSED ->
  set_status _ConnectionStatus.CLOSED (set_status _ConnectionStatus.CONNECTING c) = c.
Proof. destruct c; cbn. now intros ->. Qed.

(** X11. [_open] on a connection whose status is [CLOSED] either
    connects or fails, and nothing in between.  When it returns, the
    status is [IDLE], [connected] is set, [websocket] is a new socket to
    the host of the connection (with TLS exactly for the scheme [wss]) over
    which nothing was sent, and the retry counter is back at 0.  When it
    raises, it raises the error of the handshake and leaves every
    connection as it was, this one too, with status [CLOSED].  Either way
    it made at least one handshake, no other attribute of the connection
    changed, and the pool and the views are untouched. *)
Theorem open_connects_or_leaves_closed
    (w w' : World) (l : loc) (c : _WSConnection) (r : result unit) :
  heap w !! l = Some c ->
  status c = _ConnectionStatus.CLOSED ->
  _open l w = Some (r, w') ->
  (r = Ok tt
   /\ heap w'
      = <[l := set_connected true
                 (set_status _ConnectionStatus.IDLE
                    (set_websocket
                       (Some (mkWebSocket (host_uri c)
                                          (bool_decide (scheme c = lit "wss")) []))
                       c))]> (heap w)
   /\ retries_of (retry_strategy w') = 0
   \/ r = Raise OSError /\ heap w' = heap w)
  /\ views w' = views w
  /\ connections w' = connections w
  /\ receive_loops w' = receive_loops w
  /\ (exists used, handshakes w = used ++ handshakes w' /\ used <> [])
  /\ (exists more, slept w' = slept w ++ more).
Proof.
  intros Hl Hst H. unfold _open in H. rewrite Hl in H.
  rewrite bool_decide_eq_true_2 in H by exact Hst.
  destruct (_open_loop _ _ _ _) as [o|] eqn:Ho; [|discriminate].
  apply _open_loop_outcome in Ho; [|reflexivity].
  destruct Ho as (Hcase & Hused & Hmore).
  destruct Hcase as [(Hr & Hc & Hs) | (Hr & Hc)]; rewrite Hr in H;
    injection H as <- <-; cbn [heap views connections receive_loops handshakes slept
                                 retry_strategy].
  - repeat split; try assumption. left. repeat split; [|exact Hs].
    rewrite Hc. reflexivity.
  - repeat split; try assumption. right. split; [reflexivity|].
    rewrite Hc, set_status_closed_again by exact Hst. now apply insert_id.
Qed.

Lemma open_connects_or_leaves_closed_witness :
  (heap (world_of (_open 0%nat lone_world))
   = <[0%nat := set_connected true
                  (set_status _ConnectionStatus.IDLE
                     (set_websocket (Some (mkWebSocket host true [])) lone_connection))]>
       (heap lone_world)
   /\ retries_of (retry_strategy (world_of (_open 0%nat lone_world))) = 0)
  /\ connections (world_of (_open 0%nat lone_world)) = connections lone_world.
Proof.
  destruct (open_connects_or_leaves_closed
              lone_world (world_of (_open 0%nat lone_world)) 0%nat lone_connection (Ok tt))
    as (Hcase & _ & Hpool & _).
  - vm_compute. reflexivity.
  - reflexivity.
  - vm_compute. reflexivity.
  - destruct Hcase as [(_ & Hheap & Hretries) | (Hraise & _)]; [|discriminate].
    split; [split; [exact Hheap | exact Hretries] | exact Hpool].
Defined.

(** [k] failed handshakes within the limit of an [IntervalStrategy]: the
    loop sleeps [delay] after each and goes on. *)
Lemma _open_loop_interval_failures (limit delay : Z) (k : nat) :
  forall (retries : nat) (script : list bool) (self : _WSConnection) (log : list Z),
    status self = _ConnectionStatus.CONNECTING ->
    should_reconnect self = true ->
    Z.of_nat (retries + k) <= limit ->
    _open_loop (repeat false k ++ script) self
               (IntervalStrategy (Some limit) delay (Z.of_nat retries)) log
    = _open_loop script self
                 (IntervalStrategy (Some limit) delay (Z.of_nat (retries + k)))
                 (log ++ repeat delay k).
Proof.
  induction k as [|k IH]; intros retries script self log Hst Hre Hle.
  - cbn. now rewrite Nat.add_0_r, app_nil_r.
  - cbn [repeat app _open_loop]. rewrite bool_decide_eq_true_2 by exact Hst.
    rewrite Hre. cbn [retry].
    destruct (Z.gtb_spec limit (Z.of_nat retries)) as [_|Hge]; [|lia].
    cbn [returned after sleeps].
    replace (Z.of_nat retries + 1) with (Z.of_nat (S retries)) by lia.
    rewrite IH by (try assumption; lia).
    rewrite Nat.add_succ_r, <- app_assoc. reflexivity.
Qed.

(** X12. How often [_open] tries.  A connection that does not ask to
    reconnect, or whose pool has the base strategy, gives up at the first
    failed handshake: it raises without a sleep.  A connection that asks to
    reconnect, with a new [IntervalStrategy] of limit [limit], connects at
    the first handshake that succeeds among the first [limit + 1], having
    slept [delay] after each failed one, and leaves the counter at 0; when
    [limit + 1] handshakes in a row fail it raises after [limit] sleeps,
    with the counter at [limit]. *)
Theorem open_tries_limit_plus_one
    (w : World) (l : loc) (c : _WSConnection) (rest : list bool) :
  heap w !! l = Some c ->
  status c = _ConnectionStatus.CLOSED ->
  (should_reconnect c = false \/ retry_strategy w = BaseStrategy ->
   handshakes w = false :: rest ->
   _open l w
   = Some (Raise OSError,
           mkWorld (heap w) (views w) (connections w) (retry_strategy w)
                   rest (slept w) (receive_loops w)))
  /\ (forall (limit delay : Z) (k : nat),
        should_reconnect c = true ->
        retry_strategy w = IntervalStrategy_init (Some limit) delay ->
        Z.of_nat k <= limit ->
        handshakes w = repeat false k ++ true :: rest ->
        _open l w
        = Some (Ok tt,
                mkWorld
                  (<[l := set_connected true
                            (set_status _ConnectionStatus.IDLE
                               (set_websocket
                                  (Some (mkWebSocket (host_uri c)
                                           (bool_decide (scheme c = lit "wss")) []))
                                  c))]> (heap w))
                  (views w) (connections w)
                  (IntervalStrategy (Some limit) delay 0)
                  rest (slept w ++ repeat delay k) (receive_loops w)))
  /\ (forall (limit delay : Z),
        should_reconnect c = true ->
        retry_strategy w = IntervalStrategy_init (Some limit) delay ->
        0 <= limit ->
        handshakes w = repeat false (S (Z.to_nat limit)) ++ rest ->
        _open l w
        = Some (Raise OSError,
                mkWorld (heap w) (views w) (connections w)
                        (IntervalStrategy (Some limit) delay limit)
                        rest (slept w ++ repeat delay (Z.to_nat limit))
                        (receive_loops w))).
Proof.
  intros Hl Hst.
  assert (Hconn : status (set_status _ConnectionStatus.CONNECTING c)
                  = _ConnectionStatus.CONNECTING) by reflexivity.
  split; [|split].
  - intros Hno Hscript. unfold _open. rewrite Hl, bool_decide_eq_true_2 by exact Hst.
    rewrite Hscript. cbn [_open_loop]. rewrite bool_decide_eq_true_2 by exact Hconn.
    change (should_reconnect (set_status _ConnectionStatus.CONNECTING c))
      with (should_reconnect c).
    destruct Hno as [Hno|Hbase].
    + rewrite Hno. cbn. rewrite set_status_closed_again by exact Hst.
      now rewrite insert_id.
    + rewrite Hbase. destruct (should_reconnect c); cbn;
        rewrite set_status_closed_again by exact Hst;
        rewrite ?app_nil_r; now rewrite insert_id.
  - intros limit delay k Hre Hstrategy Hk Hscript.
    unfold _open. rewrite Hl, bool_decide_eq_true_2 by exact Hst.
    rewrite Hscript, Hstrategy. unfold IntervalStrategy_init. change 0 with (Z.of_nat 0).
    rewrite _open_loop_interval_failures by (try assumption; cbn; lia).
    cbn [_open_loop]. rewrite bool_decide_eq_true_2 by exact Hconn.
    rewrite _open_loop_not_connecting by (cbn; discriminate).
    reflexivity.
  - intros limit delay Hre Hstrategy Hlimit Hscript.
    unfold _open. rewrite Hl, bool_decide_eq_true_2 by exact Hst.
    rewrite Hscript, Hstrategy. unfold IntervalStrategy_init. change 0 with (Z.of_nat 0).
    replace (repeat false (S (Z.to_nat limit)) ++ rest)
      with (repeat false (Z.to_nat limit) ++ false :: rest)
      by (change (repeat false (S (Z.to_nat limit)))
            with (false :: repeat false (Z.to_nat limit));
          now rewrite repeat_cons, <- app_assoc).
    rewrite _open_loop_interval_failures by (try assumption; cbn; lia).
    cbn [app _open_loop]. rewrite bool_decide_eq_true_2 by exact Hconn.
    change (should_reconnect (set_status _ConnectionStatus.CONNECTING c))
      with (should_reconnect c).
    rewrite Hre. cbn [retry Nat.add].
    destruct (Z.gtb_spec limit (Z.of_nat (Z.to_nat limit))) as [Hlt|_]; [lia|].
    cbn. rewrite set_status_closed_again by exact Hst.
    rewrite insert_id by exact Hl. rewrite app_nil_r.
    rewrite Z2Nat.id by exact Hlimit. reflexivity.
Qed.

Lemma open_tries_limit_plus_one_witness :
  _open 0%nat lone_world
  = Some (Ok tt,
          mkWorld
            (<[0%nat := set_connected true
                          (set_status _ConnectionStatus.IDLE
                             (set_websocket (Some (mkWebSocket host true []))
                                            lone_connection))]> (heap lone_world))
            ∅ ∅ (IntervalStrategy (Some 2) 3 0) [] [3] []).
Proof.
  destruct (open_tries_limit_plus_one lone_world 0%nat lone_connection [])
    as (_ & Hconnects & _).
  - vm_compute. reflexivity.
  - reflexivity.
  - apply (Hconnects 2 3 1%nat); [reflexivity | reflexivity | lia | reflexivity].
Defined.

End OpenProperties.

(* ===================================================================== *)
(** * More properties of the pool and of sending *)
(* ===================================================================== *)

Section MorePoolProperties.

Import Connections Lifecycle.

Lemma bind_Ok {A B} (m : M A) (k : A -> M B) (w w1 : World) (a : A) :
  m w = Some (Ok a, w1) -> bind m k w = k a w1.
Proof. intros H. unfold bind. now rewrite H. Qed.

Lemma bind_bind {A B C} (m : M A) (k : A -> M B) (k' : B -> M C) (w : World) :
  bind (bind m k) k' w = bind m (fun a => bind (k a) k') w.
Proof. unfold bind. destruct (m w) as [[[a|e] w1]|]; reflexivity. Qed.

Lemma get_conn_Ok (l : loc) (c : _WSConnection) (w : World) :
  heap w !! l = Some c -> get_conn l w = Some (Ok c, w).
Proof. intros H. unfold get_conn. now rewrite H. Qed.

(** X13. A connection that [_get_connection] has constructed is
    [CLOSED] until it is opened, so the pool does not hand it out again:
    two calls for the same host in a row, with nothing opened in between,
    construct two connections; the pool holds the second, and the first
    stays as it was constructed. *)
Theorem get_connection_twice_constructs_twice
    (w : World) (host_uri scheme scheme' : str)
    (keep_linked keep_synced keep_linked' keep_synced' : bool) :
  connections w !! host_uri = None ->
  exists l1 w1 l2 w2,
    _get_connection host_uri scheme keep_linked keep_synced w = Some (Ok l1, w1)
    /\ _get_connection host_uri scheme' keep_linked' keep_synced' w1 = Some (Ok l2, w2)
    /\ l1 <> l2
    /\ connections w2 !! host_uri = Some l2
    /\ heap w2 !! l1 = Some (_WSConnection_init host_uri scheme keep_linked keep_synced)
    /\ heap w2 !! l2
       = Some (_WSConnection_init host_uri scheme' keep_linked' keep_synced').
Proof.
  intros Hnone.
  set (c1 := _WSConnection_init host_uri scheme keep_linked keep_synced).
  set (l1 := fresh (dom (heap w))).
  set (l2 := fresh (dom (<[l1 := c1]> (heap w)))).
  assert (Hne : l1 <> l2).
  { intros E. pose proof (is_fresh (dom (<[l1 := c1]> (heap w)))) as Hfresh.
    fold l2 in Hfresh. rewrite <- E in Hfresh. apply Hfresh.
    apply elem_of_dom. rewrite lookup_insert_eq. eauto. }
  eexists l1, _, l2, _. split; [|split].
  - unfold _get_connection. rewrite Hnone. reflexivity.
  - unfold _get_connection. cbn [connections heap].
    rewrite lookup_insert_eq, lookup_insert_eq. cbn. reflexivity.
  - cbn [connections heap]. repeat split.
    + exact Hne.
    + apply lookup_insert_eq.
    + rewrite lookup_insert_ne by (intros E; apply Hne; symmetry; exact E).
      apply lookup_insert_eq.
    + apply lookup_insert_eq.
Qed.

Lemma get_connection_twice_constructs_twice_witness :
  exists l1 w1 l2 w2,
    _get_connection host (lit "ws") false false (empty_world BaseStrategy [])
    = Some (Ok l1, w1)
    /\ _get_connection host (lit "ws") true false w1 = Some (Ok l2, w2)
    /\ l1 <> l2
    /\ connections w2 !! host = Some l2
    /\ heap w2 !! l1 = Some (_WSConnection_init host (lit "ws") false false)
    /\ heap w2 !! l2 = Some (_WSConnection_init host (lit "ws") true false).
Proof.
  apply (get_connection_twice_constructs_twice (empty_world BaseStrategy [])).
  vm_compute. reflexivity.
Defined.

Lemma close_Ok (l : loc) (c : _WSConnection) (w : World) :
  heap w !! l = Some c ->
  exists w', _close l w = Some (Ok tt, w')
    /\ heap w' = <[l := closed_connection c]> (heap w)
    /\ views w' = views w /\ connections w' = connections w
    /\ retry_strategy w' = retry_strategy w /\ handshakes w' = handshakes w
    /\ slept w' = slept w /\ receive_loops w' = receive_loops w.
Proof.
  intros Hl. unfold _close. rewrite (bind_Ok _ _ _ _ _ (get_conn_Ok _ _ _ Hl)).
  unfold closed_connection.
  destruct (bool_decide (status c = _ConnectionStatus.CLOSED)); cbn [negb].
  - eexists. split; [reflexivity|]. rewrite insert_id by exact Hl. repeat split.
  - change (websocket (set_status _ConnectionStatus.CLOSED c)) with (websocket c).
    destruct (websocket c); eexists; (split; [reflexivity|]); repeat split.
Qed.

Lemma closed_connection_status (c : _WSConnection) :
  status (closed_connection c) = _ConnectionStatus.CLOSED
  /\ subscribers (closed_connection c) = subscribers c
  /\ websocket (closed_connection c) = websocket c
  /\ keep_linked (closed_connection c) = keep_linked c
  /\ keep_synced (closed_connection c) = keep_synced c
  /\ (connected (closed_connection c) = true ->
      connected c = true /\ (websocket c = None \/ status c = _ConnectionStatus.CLOSED)).
Proof.
  unfold closed_connection.
  destruct (bool_decide (status c = _ConnectionStatus.CLOSED)) eqn:E.
  - apply bool_decide_eq_true_1 in E. repeat split; auto.
  - destruct (websocket c) eqn:Ews; cbn; repeat split; auto; discriminate.
Qed.

(** X14. [_remove_connection(host_uri)] evicts and closes.  For a host
    that the pool does not hold it does nothing, and raises nothing.
    Otherwise the pool no longer holds the host (the other hosts stay),
    the connection it held has status [CLOSED] and keeps its socket object
    and its subscribers, and no handshake is made; removing the host once
    more changes nothing, and the next [_get_connection] for the host
    constructs a new connection. *)
Theorem remove_connection_evicts_and_closes (w : World) (host_uri : str) :
  pool_entry_sound w host_uri ->
  exists w',
    _remove_connection host_uri w = Some (Ok tt, w')
    /\ (connections w !! host_uri = None -> w' = w)
    /\ connections w' = delete host_uri (connections w)
    /\ (forall l c, pooled w host_uri = Some (l, c) ->
          heap w' = <[l := closed_connection c]> (heap w)
          /\ status (closed_connection c) = _ConnectionStatus.CLOSED
          /\ subscribers (closed_connection c) = subscribers c
          /\ websocket (closed_connection c) = websocket c)
    /\ handshakes w' = handshakes w
    /\ _remove_connection host_uri w' = Some (Ok tt, w')
    /\ (forall scheme keep_linked keep_synced,
          exists l w'',
            _get_connection host_uri scheme keep_linked keep_synced w' = Some (Ok l, w'')
            /\ heap w' !! l = None).
Proof.
  intros Hsound. unfold pool_entry_sound in Hsound. unfold _remove_connection at 1, pooled.
  assert (Hfresh : forall w0 : World, heap w0 !! fresh (dom (heap w0)) = None).
  { intros w0. apply not_elem_of_dom, is_fresh. }
  destruct (connections w !! host_uri) as [l|] eqn:Hpool.
  - destruct Hsound as [c Hc].
    destruct (close_Ok l c (set_connections (delete host_uri (connections w)) w) Hc)
      as (w' & Hclose & Hheap & _ & Hconns & _ & Hhs & _).
    unfold set_connections in Hheap, Hconns, Hhs.
    cbn [heap connections handshakes] in Hheap, Hconns, Hhs.
    exists w'. split; [exact Hclose|]. split; [discriminate|].
    split; [exact Hconns|]. split; [|split; [exact Hhs|split]].
    + intros l0 c0. rewrite Hc. intros [= <- <-].
      split; [exact Hheap|]. pose proof (closed_connection_status c) as (H1 & H2 & H3 & _).
      auto.
    + unfold _remove_connection. rewrite Hconns.
      now rewrite lookup_delete_eq.
    + intros scheme keep_linked keep_synced. unfold _get_connection.
      rewrite Hconns. rewrite lookup_delete_eq.
      eexists _, _. split; [reflexivity | apply Hfresh].
  - exists w. split; [reflexivity|]. split; [reflexivity|].
    split; [now rewrite delete_id|]. split; [discriminate|].
    split; [reflexivity|]. split.
    + unfold _remove_connection. now rewrite Hpool.
    + intros scheme keep_linked keep_synced. unfold _get_connection. rewrite Hpool.
      eexists _, _. split; [reflexivity | apply Hfresh].
Qed.

Lemma remove_connection_evicts_and_closes_witness :
  exists w',
    _remove_connection host (world_of first_added) = Some (Ok tt, w')
    /\ connections w' !! host = None
    /\ heap w' = <[0%nat := closed_connection first_connection]>
                   (heap (world_of first_added))
    /\ status (closed_connection first_connection) = _ConnectionStatus.CLOSED
    /\ connected (closed_connection first_connection) = false.
Proof.
  destruct (remove_connection_evicts_and_closes (world_of first_added) host)
    as (w' & Hremove & _ & Hpool & Hheld & _).
  - vm_compute. eexists. reflexivity.
  - exists w'. split; [exact Hremove|]. split; [rewrite Hpool; apply lookup_delete_eq|].
    destruct (Hheld 0%nat first_connection) as (Hheap & Hstatus & _).
    + vm_compute. reflexivity.
    + split; [exact Hheap|]. split; [exact Hstatus|]. vm_compute. reflexivity.
Defined.

End MorePoolProperties.

Section SendProperties.

Import Connections Lifecycle.

Lemma set_heap_set_heap (h h' : gmap loc _WSConnection) (w : World) :
  set_heap h (set_heap h' w) = set_heap h w.
Proof. reflexivity. Qed.

Lemma send_message_open (l : loc) (c : _WSConnection) (ws : WebSocket)
    (message : Frame) (w : World) :
  heap w !! l = Some c ->
  websocket c = Some ws ->
  status c <> _ConnectionStatus.CLOSED ->
  connected c = true ->
  _send_message l message w
  = Some (Ok tt, set_heap (<[l := sent_more [message] c]> (heap w)) w).
Proof.
  intros Hl Hws Hst Hconn. unfold _send_message, sent_more.
  rewrite (bind_Ok _ _ _ _ _ (get_conn_Ok _ _ _ Hl)).
  rewrite Hws. rewrite (bool_decide_eq_false_2 (Some ws = None)) by discriminate.
  rewrite (bool_decide_eq_false_2 _ Hst). cbn [orb when].
  unfold bind at 1. unfold ret at 1.
  rewrite (bind_Ok _ _ _ _ _ (get_conn_Ok _ _ _ Hl)).
  rewrite Hconn, Hws. reflexivity.
Qed.

Lemma open_first_handshake (l : loc) (c : _WSConnection) (rest : list bool) (w : World) :
  heap w !! l = Some c ->
  status c = _ConnectionStatus.CLOSED ->
  handshakes w = true :: rest ->
  _open l w
  = Some (Ok tt,
          mkWorld (<[l := opened_connection c]> (heap w)) (views w) (connections w)
                  (reset (retry_strategy w)) rest (slept w) (receive_loops w)).
Proof.
  intros Hl Hst Hscript. unfold _open. rewrite Hl, bool_decide_eq_true_2 by exact Hst.
  rewrite Hscript. cbn [_open_loop].
  rewrite bool_decide_eq_true_2 by reflexivity.
  rewrite _open_loop_not_connecting by (cbn; discriminate).
  reflexivity.
Qed.

(** X15. Frames go out in the order of the calls.  On a connection that
    is not [CLOSED] and is connected, two calls of [_send_message] add their
    two frames, in that order, after the frames already sent over the
    socket; they make no handshake and change nothing else. *)
Theorem send_message_keeps_order
    (w : World) (l : loc) (c : _WSConnection) (ws : WebSocket) (first second : Frame) :
  heap w !! l = Some c ->
  websocket c = Some ws ->
  status c <> _ConnectionStatus.CLOSED ->
  connected c = true ->
  bind (_send_message l first) (fun _ => _send_message l second) w
  = Some (Ok tt,
          set_heap
            (<[l := set_websocket
                      (Some (mkWebSocket (ws_uri ws) (ws_ssl ws)
                                         (ws_sent ws ++ [first; second])))
                      c]> (heap w))
            w).
Proof.
  intros Hl Hws Hst Hconn.
  rewrite (bind_Ok _ _ _ _ _ (send_message_open _ _ _ first _ Hl Hws Hst Hconn)).
  unfold sent_more. rewrite Hws.
  erewrite send_message_open; cycle 1.
  - cbn [heap set_heap]. apply lookup_insert_eq.
  - reflexivity.
  - exact Hst.
  - exact Hconn.
  - rewrite set_heap_set_heap. cbn [heap set_heap]. rewrite insert_insert_eq.
    unfold sent_more. cbn [websocket set_websocket ws_uri ws_ssl ws_sent].
    rewrite <- app_assoc. reflexivity.
Qed.

Lemma send_message_keeps_order_witness :
  bind (_send_message 0%nat (TextFrame (lit "a")))
       (fun _ => _send_message 0%nat (TextFrame (lit "b")))
       (world_of first_added)
  = Some (Ok tt,
          set_heap
            (<[0%nat := set_websocket
                          (Some (mkWebSocket host false
                                   ([SyncFrame (lit "/unit/foo") (lit "info")]
                                    ++ [TextFrame (lit "a"); TextFrame (lit "b")])))
                          first_connection]> (heap (world_of first_added)))
            (world_of first_added)).
Proof.
  apply (send_message_keeps_order (world_of first_added) 0%nat first_connection
           (mkWebSocket host false [SyncFrame (lit "/unit/foo") (lit "info")])).
  - vm_compute. reflexivity.
  - vm_compute. reflexivity.
  - vm_compute. discriminate.
  - vm_compute. reflexivity.
Defined.

(** X16. Sending over a closed connection opens it first.  When the
    status is [CLOSED] and the next handshake succeeds, [_send_message]
    makes that one handshake, and the frame is the first and only frame of
    the new socket: what the old socket had sent is not sent again.  The
    connection is left [IDLE] and connected, and the retry counter at 0. *)
Theorem send_message_reopens
    (w : World) (l : loc) (c : _WSConnection) (message : Frame) (rest : list bool) :
  heap w !! l = Some c ->
  status c = _ConnectionStatus.CLOSED ->
  handshakes w = true :: rest ->
  _send_message l message w
  = Some (Ok tt,
          mkWorld
            (<[l := set_websocket
                      (Some (mkWebSocket (host_uri c) (bool_decide (scheme c = lit "wss"))
                                         [message]))
                      (opened_connection c)]> (heap w))
            (views w) (connections w) (reset (retry_strategy w)) rest (slept w)
            (receive_loops w)).
Proof.
  intros Hl Hst Hscript. unfold _send_message.
  rewrite (bind_Ok _ _ _ _ _ (get_conn_Ok _ _ _ Hl)).
  rewrite (bool_decide_eq_true_2 _ Hst), orb_true_r. cbn [when].
  rewrite (bind_Ok _ _ _ _ _ (open_first_handshake _ _ _ _ Hl Hst Hscript)).
  erewrite bind_Ok; cycle 1.
  { apply get_conn_Ok. cbn [heap]. apply lookup_insert_eq. }
  cbn [opened_connection connected set_connected websocket set_status set_websocket].
  unfold put_conn, set_heap. cbn [heap views connections retry_strategy handshakes
                                    slept receive_loops].
  rewrite insert_insert_eq. reflexivity.
Qed.

Lemma send_message_reopens_witness :
  _send_message 0%nat (TextFrame (lit "a")) ready_world
  = Some (Ok tt,
          mkWorld
            (<[0%nat := set_websocket (Some (mkWebSocket host true [TextFrame (lit "a")]))
                          (opened_connection lone_connection)]> (heap ready_world))
            ∅ ∅ BaseStrategy [] [] []).
Proof.
  rewrite (send_message_reopens ready_world 0%nat lone_connection
             (TextFrame (lit "a")) []).
  - reflexivity.
  - vm_compute. reflexivity.
  - reflexivity.
  - reflexivity.
Defined.

End SendProperties.

Section ReconnectProperties.

Import Connections Lifecycle.

Lemma close_running (l : loc) (c : _WSConnection) (w : World) :
  heap w !! l = Some c ->
  status c <> _ConnectionStatus.CLOSED ->
  _close l w = Some (Ok tt, set_heap (<[l := closed_connection c]> (heap w)) w).
Proof.
  intros Hl Hst. unfold _close, closed_connection.
  rewrite (bind_Ok _ _ _ _ _ (get_conn_Ok _ _ _ Hl)).
  rewrite (bool_decide_eq_false_2 _ Hst). cbn [negb].
  change (websocket (set_status _ConnectionStatus.CLOSED c)) with (websocket c).
  destruct (websocket c); reflexivity.
Qed.

Lemma closed_connection_running (c : _WSConnection) :
  status c <> _ConnectionStatus.CLOSED ->
  status (closed_connection c) = _ConnectionStatus.CLOSED
  /\ should_reconnect (closed_connection c) = should_reconnect c
  /\ host_uri (closed_connection c) = host_uri c
  /\ scheme (closed_connection c) = scheme c
  /\ auth_message (closed_connection c) = auth_message c
  /\ init_message (closed_connection c) = init_message c
  /\ subscribers (closed_connection c) = subscribers c.
Proof.
  intros Hst. unfold closed_connection. rewrite (bool_decide_eq_false_2 _ Hst).
  destruct (websocket c); repeat split.
Qed.

Lemma send_replayed (l : loc) (c : _WSConnection) (w : World) :
  heap w !! l = Some (opened_connection c) ->
  bind (_send_auth_message l) (fun _ => bind (_send_init_message l) (fun _ => ret true)) w
  = Some (Ok true,
          set_heap (<[l := sent_more (replayed c) (opened_connection c)]> (heap w)) w).
Proof.
  intros Hl. unfold _send_auth_message, _send_init_message, replayed.
  rewrite bind_bind, (bind_Ok _ _ _ _ _ (get_conn_Ok _ _ _ Hl)).
  change (auth_message (opened_connection c)) with (auth_message c).
  assert (Hsame : forall w0 : World,
             heap w0 !! l = Some (opened_connection c) ->
             set_heap (<[l := opened_connection c]> (heap w0)) w0 = w0).
  { intros [h ? ? ? ? ? ?] H0. unfold set_heap. cbn in *. now rewrite insert_id. }
  destruct (auth_message c) as [a|].
  - unfold bind at 1.
    rewrite (send_message_open l (opened_connection c) _ (TextFrame a) w Hl eq_refl)
      by (cbn; (discriminate || reflexivity)).
    rewrite bind_bind.
    erewrite bind_Ok by (apply get_conn_Ok; cbn [heap set_heap]; apply lookup_insert_eq).
    change (init_message (sent_more [TextFrame a] (opened_connection c)))
      with (init_message c).
    destruct (init_message c) as [i|].
    + unfold bind at 1.
      erewrite send_message_open; cycle 1.
      * cbn [heap set_heap]. apply lookup_insert_eq.
      * reflexivity.
      * cbn. discriminate.
      * reflexivity.
      * unfold ret. rewrite set_heap_set_heap. cbn [heap set_heap].
        rewrite insert_insert_eq. reflexivity.
    + unfold bind, ret. reflexivity.
  - unfold bind at 1. unfold ret at 1.
    rewrite bind_bind, (bind_Ok _ _ _ _ _ (get_conn_Ok _ _ _ Hl)).
    change (init_message (opened_connection c)) with (init_message c).
    destruct (init_message c) as [i|].
    + unfold bind at 1.
      rewrite (send_message_open l (opened_connection c) _ (TextFrame i) w Hl eq_refl)
        by (cbn; (discriminate || reflexivity)).
      reflexivity.
    + unfold bind, ret. cbn [app]. f_equal. f_equal. symmetry.
      exact (Hsame w Hl).
Qed.

(** X17. What [_wait_for_messages] does when the socket is closed under
    it.  The connection is closed first.  If it does not ask to reconnect,
    or the strategy refuses a retry, the loop ends: no handshake is made
    and the connection stays [CLOSED].  If it asks to reconnect and the
    strategy grants the retry (having slept), and the handshake then
    succeeds, the loop goes on with the connection [IDLE] and connected
    over a new socket, over which the auth message and then the init
    message were sent, each if it is set, and nothing else; the retry
    counter is back at 0 and the subscribers are as before. *)
Theorem reconnect_replays_auth_then_init
    (w : World) (l : loc) (c : _WSConnection) :
  heap w !! l = Some c ->
  status c <> _ConnectionStatus.CLOSED ->
  (should_reconnect c = false ->
   on_connection_closed l w
   = Some (Ok false, set_heap (<[l := closed_connection c]> (heap w)) w))
  /\ (should_reconnect c = true ->
      returned (retry (retry_strategy w)) = false ->
      exists w',
        on_connection_closed l w = Some (Ok false, w')
        /\ heap w' = <[l := closed_connection c]> (heap w)
        /\ handshakes w' = handshakes w /\ slept w' = slept w
        /\ retry_strategy w' = retry_strategy w)
  /\ (forall rest,
        should_reconnect c = true ->
        returned (retry (retry_strategy w)) = true ->
        handshakes w = true :: rest ->
        exists w',
          on_connection_closed l w = Some (Ok true, w')
          /\ heap w'
             = <[l := set_websocket
                        (Some (mkWebSocket (host_uri c)
                                 (bool_decide (scheme c = lit "wss")) (replayed c)))
                        (opened_connection (closed_connection c))]> (heap w)
          /\ subscribers (opened_connection (closed_connection c)) = subscribers c
          /\ handshakes w' = rest
          /\ slept w' = slept w ++ sleeps (retry (retry_strategy w))
          /\ retries_of (retry_strategy w') = 0).
Proof.
  intros Hl Hst.
  pose proof (closed_connection_running c Hst)
    as (Hclosed & Hre & Hhost & Hscheme & Hauth & Hinit & Hsubs).
  assert (Hl1 : heap (set_heap (<[l := closed_connection c]> (heap w)) w) !! l
                = Some (closed_connection c))
    by (cbn [heap set_heap]; apply lookup_insert_eq).
  split; [|split].
  - intros Hno. unfold on_connection_closed.
    rewrite (bind_Ok _ _ _ _ _ (close_running _ _ _ Hl Hst)).
    rewrite (bind_Ok _ _ _ _ _ (get_conn_Ok _ _ _ Hl1)).
    rewrite Hre, Hno. reflexivity.
  - intros Hyes Hrefused. unfold on_connection_closed.
    rewrite (bind_Ok _ _ _ _ _ (close_running _ _ _ Hl Hst)).
    rewrite (bind_Ok _ _ _ _ _ (get_conn_Ok _ _ _ Hl1)).
    rewrite Hre, Hyes. unfold bind, strategy_retry, set_heap.
    cbn [heap views connections retry_strategy handshakes slept receive_loops].
    rewrite Hrefused.
    destruct (retry_refused _ Hrefused) as [Hafter Hsleeps].
    eexists. split; [reflexivity|].
    cbn [heap handshakes slept retry_strategy set_heap].
    rewrite Hsleeps, app_nil_r. auto.
  - intros rest Hyes Hgranted Hscript. unfold on_connection_closed.
    rewrite (bind_Ok _ _ _ _ _ (close_running _ _ _ Hl Hst)).
    rewrite (bind_Ok _ _ _ _ _ (get_conn_Ok _ _ _ Hl1)).
    rewrite Hre, Hyes.
    unfold bind at 1. unfold strategy_retry at 1.
    change (retry_strategy (set_heap (<[l := closed_connection c]> (heap w)) w))
      with (retry_strategy w).
    rewrite Hgranted.
    erewrite bind_Ok; cycle 1.
    { apply open_first_handshake with (c := closed_connection c) (rest := rest).
      - exact Hl1.
      - exact Hclosed.
      - exact Hscript. }
    erewrite (send_replayed l (closed_connection c)); cycle 1.
    { cbn [heap set_heap]. apply lookup_insert_eq. }
    eexists. split; [reflexivity|].
    cbn [heap handshakes slept retry_strategy set_heap].
    rewrite !insert_insert_eq. repeat split.
    + unfold sent_more, replayed. cbn [websocket opened_connection set_connected
                                          set_status set_websocket ws_uri ws_ssl ws_sent app].
      rewrite Hhost, Hscheme, Hauth, Hinit. reflexivity.
    + exact Hsubs.
    + apply retries_of_reset.
Qed.

Lemma reconnect_replays_auth_then_init_witness :
  exists w',
    on_connection_closed 0%nat running_world = Some (Ok true, w')
    /\ (exists c', heap w' !! 0%nat = Some c'
                   /\ websocket c'
                      = Some (mkWebSocket host true
                                [TextFrame (lit "@auth"); TextFrame (lit "@init")]))
    /\ slept w' = [3].
Proof.
  destruct (reconnect_replays_auth_then_init running_world 0%nat running_connection)
    as (_ & _ & Hreconnects).
  - vm_compute. reflexivity.
  - vm_compute. discriminate.
  - destruct (Hreconnects []) as (w' & Hrun & Hheap & _ & _ & Hslept & _);
      [reflexivity | reflexivity | reflexivity |].
    exists w'. split; [exact Hrun|]. split.
    + eexists. split; [rewrite Hheap; apply lookup_insert_eq|]. reflexivity.
    + rewrite Hslept. reflexivity.
Defined.

End ReconnectProperties.

(* ===================================================================== *)
(** * Subscribing views *)
(* ===================================================================== *)

Section SubscribeProperties.

Import Connections Lifecycle.

Lemma get_view_Ok (v : loc) (view : _DownlinkView) (w : World) :
  views w !! v = Some view -> get_view v w = Some (Ok view, w).
Proof. intros H. unfold get_view. now rewrite H. Qed.

Lemma get_manager_Ok (l : loc) (r : str) (c : _WSConnection)
    (manager : _DownlinkManager) (w : World) :
  heap w !! l = Some c -> subscribers c !! r = Some manager ->
  get_manager l r w = Some (Ok manager, w).
Proof.
  intros Hl Hr. unfold get_manager.
  rewrite (bind_Ok _ _ _ _ _ (get_conn_Ok _ _ _ Hl)), Hr. reflexivity.
Qed.

(** X18. Views of the same lane share one downlink.  When the manager of
    the route of a view already has a model and a view, [_subscribe] adds
    the view to that manager and triggers its [did_open], and that is all:
    no handshake is made, no frame is sent (no second [sync] or [link]),
    the status of the manager and of the connection are as before. *)
Theorem second_view_shares_the_downlink
    (w : World) (l v : loc) (c : _WSConnection) (view : _DownlinkView)
    (manager : _DownlinkManager) :
  heap w !! l = Some c ->
  views w !! v = Some view ->
  subscribers c !! route view = Some manager ->
  downlink_model manager <> None ->
  _view_count manager <> 0 ->
  _subscribe l v w
  = Some (Ok tt,
          set_views (<[v := did_open_once view]> (views w))
            (set_heap
               (<[l := set_subscribers
                         (<[route view := with_view v manager]> (subscribers c)) c]>
                  (heap w))
               w)).
Proof.
  intros Hl Hv Hr Hmodel Hcount.
  assert (Hsize : (Z.of_nat (size (subscribers c)) =? 0) = false).
  { apply Z.eqb_neq. intros E.
    assert (E0 : size (subscribers c) = 0%nat) by lia.
    apply map_size_empty_iff in E0. rewrite E0, lookup_empty in Hr. discriminate. }
  unfold _subscribe.
  rewrite (bind_Ok _ _ _ _ _ (get_conn_Ok _ _ _ Hl)), Hsize. cbn [when].
  unfold bind at 1. unfold ret at 1.
  unfold _register_downlink_view.
  rewrite bind_bind, (bind_Ok _ _ _ _ _ (get_view_Ok _ _ _ Hv)).
  rewrite bind_bind, (bind_Ok _ _ _ _ _ (get_conn_Ok _ _ _ Hl)), Hr.
  rewrite bind_bind. unfold bind at 1. unfold ret at 1.
  unfold _add_view.
  rewrite bind_bind, (bind_Ok _ _ _ _ _ (get_view_Ok _ _ _ Hv)).
  rewrite bind_bind, (bind_Ok _ _ _ _ _ (get_manager_Ok _ _ _ _ _ Hl Hr)).
  rewrite (bool_decide_eq_false_2 _ Hmodel). cbn [when].
  rewrite bind_bind. unfold bind at 1. unfold ret at 1.
  rewrite bind_bind, (bind_Ok _ _ _ _ _ (get_manager_Ok _ _ _ _ _ Hl Hr)).
  apply Z.eqb_neq in Hcount. rewrite Hcount. cbn [when].
  rewrite bind_bind. unfold bind at 1. unfold ret at 1.
  rewrite bind_bind, (bind_Ok _ _ _ _ _ (get_manager_Ok _ _ _ _ _ Hl Hr)).
  unfold put_manager.
  rewrite bind_bind, (bind_Ok _ _ _ _ _ (get_conn_Ok _ _ _ Hl)).
  unfold bind at 1. unfold put_conn at 1.
  unfold _execute_did_open.
  erewrite bind_Ok by (apply get_view_Ok; exact Hv).
  reflexivity.
Qed.

Lemma second_view_shares_the_downlink_witness :
  exists manager,
    subscribers first_connection !! route view_b = Some manager
    /\ _subscribe 0%nat 1%nat (world_of first_added)
       = Some (Ok tt,
               set_views (<[1%nat := did_open_once view_b]> (views (world_of first_added)))
                 (set_heap
                    (<[0%nat := set_subscribers
                                  (<[route view_b := with_view 1%nat manager]>
                                     (subscribers first_connection))
                                  first_connection]> (heap (world_of first_added)))
                    (world_of first_added))).
Proof.
  assert (Hmanager : exists manager,
             subscribers first_connection !! route view_b = Some manager
             /\ downlink_model manager <> None /\ _view_count manager <> 0).
  { vm_compute. eexists. split; [reflexivity|]. split; discriminate. }
  destruct Hmanager as (manager & Hr & Hmodel & Hcount).
  exists manager. split; [exact Hr|].
  apply (second_view_shares_the_downlink (world_of first_added) 0%nat 1%nat
           first_connection view_b manager).
  - vm_compute. reflexivity.
  - vm_compute. reflexivity.
  - exact Hr.
  - exact Hmodel.
  - exact Hcount.
Defined.

Lemma open_gives_up_at_once (l : loc) (c : _WSConnection) (rest : list bool) (w : World) :
  heap w !! l = Some c ->
  status c = _ConnectionStatus.CLOSED ->
  should_reconnect c = false \/ retry_strategy w = BaseStrategy ->
  handshakes w = false :: rest ->
  _open l w
  = Some (Raise OSError,
          mkWorld (heap w) (views w) (connections w) (retry_strategy w)
                  rest (slept w) (receive_loops w)).
Proof.
  intros Hl Hst Hno Hscript. unfold _open. rewrite Hl, bool_decide_eq_true_2 by exact Hst.
  rewrite Hscript. cbn [_open_loop]. rewrite bool_decide_eq_true_2 by reflexivity.
  change (should_reconnect (set_status _ConnectionStatus.CONNECTING c))
    with (should_reconnect c).
  destruct Hno as [Hno|Hbase].
  - rewrite Hno. cbn. rewrite set_status_closed_again by exact Hst.
    now rewrite insert_id.
  - rewrite Hbase. destruct (should_reconnect c); cbn;
      rewrite set_status_closed_again by exact Hst;
      rewrite ?app_nil_r; now rewrite insert_id.
Qed.

(** X19. When the first handshake fails.  A view is added for a host
    that the pool does not hold, its handshake fails, and the view asks for
    no persistence (or the pool has the base strategy):
    [_add_downlink_view] raises the error of the handshake, without a
    sleep.  The pool is left holding for the host a connection that is new,
    [CLOSED], never connected and without subscribers, and the view
    refers to that connection; the view is registered nowhere and its
    [did_open] was not triggered. *)
Theorem add_downlink_view_fails_closed
    (w : World) (v : loc) (view : _DownlinkView) (rest : list bool) :
  views w !! v = Some view ->
  connections w !! _host_uri view = None ->
  (_keep_linked view || _keep_synced view) = false \/ retry_strategy w = BaseStrategy ->
  handshakes w = false :: rest ->
  _add_downlink_view v w
  = Some (Raise OSError,
          mkWorld
            (<[fresh (dom (heap w))
               := _WSConnection_init (_host_uri view) (_scheme view)
                                     (_keep_linked view) (_keep_synced view)]> (heap w))
            (<[v := with_connection (fresh (dom (heap w))) view]> (views w))
            (<[_host_uri view := fresh (dom (heap w))]> (connections w))
            (retry_strategy w) rest (slept w) (receive_loops w)).
Proof.
  intros Hv Hpool Hno Hscript. unfold _add_downlink_view.
  rewrite (bind_Ok _ _ _ _ _ (get_view_Ok _ _ _ Hv)).
  erewrite bind_Ok; cycle 1.
  { unfold _get_connection. rewrite Hpool. reflexivity. }
  unfold bind at 1. unfold put_view at 1. unfold _subscribe.
  erewrite bind_Ok; cycle 1.
  { apply get_conn_Ok. cbn [heap set_views]. apply lookup_insert_eq. }
  cbn [subscribers _WSConnection_init]. rewrite map_size_empty.
  change (Z.of_nat 0 =? 0) with true. unfold when. unfold bind at 1.
  erewrite open_gives_up_at_once; cycle 1.
  - cbn [heap set_views]. apply lookup_insert_eq.
  - reflexivity.
  - exact Hno.
  - exact Hscript.
  - reflexivity.
Qed.

Lemma add_downlink_view_fails_closed_witness :
  _add_downlink_view 0%nat
    (mkWorld ∅ (<[0%nat := view_a]> ∅) ∅ (IntervalStrategy_init (Some 2) 3) [false] [] [])
  = Some (Raise OSError,
          mkWorld (<[0%nat := _WSConnection_init host (lit "ws") false false]> ∅)
                  (<[0%nat := with_connection 0%nat view_a]> (<[0%nat := view_a]> ∅))
                  (<[host := 0%nat]> ∅)
                  (IntervalStrategy_init (Some 2) 3) [] [] []).
Proof.
  rewrite (add_downlink_view_fails_closed
             (mkWorld ∅ (<[0%nat := view_a]> ∅) ∅ (IntervalStrategy_init (Some 2) 3)
                      [false] [] [])
             0%nat view_a []).
  - vm_compute. reflexivity.
  - vm_compute. reflexivity.
  - vm_compute. reflexivity.
  - left. reflexivity.
  - reflexivity.
Defined.

End SubscribeProperties.

(* ===================================================================== *)
(** * The first view of a host *)
(* ===================================================================== *)

Section FirstViewProperties.

Import Connections Lifecycle.

Lemma put_manager_Ok (l : loc) (r : str) (c : _WSConnection)
    (manager : _DownlinkManager) (w : World) :
  heap w !! l = Some c ->
  put_manager l r manager w
  = Some (Ok tt,
          set_heap (<[l := set_subscribers (<[r := manager]> (subscribers c)) c]> (heap w))
                   w).
Proof.
  intros Hl. unfold put_manager.
  rewrite (bind_Ok _ _ _ _ _ (get_conn_Ok _ _ _ Hl)). reflexivity.
Qed.

Ltac lookup_now :=
  cbn [heap views connections set_heap set_views subscribers set_subscribers
       set_websocket set_status set_connected];
  first [ eassumption | apply lookup_insert_eq ].

Lemma subscribers_set (s : gmap str _DownlinkManager) (c : _WSConnection) :
  subscribers (set_subscribers s c) = s.
Proof. reflexivity. Qed.

Lemma set_subscribers_twice (s s' : gmap str _DownlinkManager) (c : _WSConnection) :
  set_subscribers s (set_subscribers s' c) = set_subscribers s c.
Proof. reflexivity. Qed.

Lemma sent_more_set_subscribers (frames : list Frame) (s : gmap str _DownlinkManager)
    (c : _WSConnection) :
  sent_more frames (set_subscribers s c) = set_subscribers s (sent_more frames c).
Proof. unfold sent_more. cbn. destruct (websocket c); reflexivity. Qed.

Lemma model_open_Ok (model : _DownlinkModel) (c : loc) (w : World) :
  model_connection model = Some c ->
  model_open model w
  = Some (Ok tt, mkWorld (heap w) (views w) (connections w) (retry_strategy w)
                         (handshakes w) (slept w) (receive_loops w ++ [c])).
Proof. intros H. unfold model_open. now rewrite H. Qed.

Ltac tidy :=
  cbn [heap views connections retry_strategy handshakes slept receive_loops
       set_heap set_views connection manager_status downlink_model downlink_views
       _DownlinkManager_init _create_downlink_model
       model_kind model_node_uri model_lane_uri model_connection];
  repeat first [ rewrite subscribers_set | rewrite set_subscribers_twice
               | rewrite set_heap_set_heap | rewrite insert_insert_eq ].

Ltac run_step :=
  first
    [ rewrite bind_bind
    | erewrite bind_Ok by (apply get_view_Ok; lookup_now)
    | erewrite bind_Ok by (apply get_conn_Ok; lookup_now)
    | erewrite bind_Ok by (eapply get_manager_Ok; lookup_now)
    | erewrite bind_Ok by (apply put_manager_Ok; lookup_now) ].

Lemma register_first_view (w : World) (l v : loc) (c : _WSConnection)
    (view : _DownlinkView) (ws : WebSocket) :
  heap w !! l = Some c ->
  views w !! v = Some view ->
  _connection view = Some l ->
  subscribers c !! route view = None ->
  websocket c = Some ws ->
  status c <> _ConnectionStatus.CLOSED ->
  connected c = true ->
  _register_downlink_view l v w
  = Some (Ok tt,
          mkWorld
            (<[l := set_subscribers
                      (<[route view := open_manager l v view]> (subscribers c))
                      (sent_more [establishing view] c)]> (heap w))
            (views w) (connections w) (retry_strategy w) (handshakes w) (slept w)
            (receive_loops w ++ [l])).
Proof.
  intros Hl Hv Hconn Hr Hws Hst Hc. unfold _register_downlink_view.
  do 2 run_step. rewrite Hr. run_step.
  unfold _add_view. repeat run_step.
  cbn [downlink_model _DownlinkManager_init].
  rewrite bool_decide_eq_true_2 by reflexivity. unfold when at 1.
  unfold _init_downlink_model. repeat run_step. tidy.
  unfold _view_count at 1. cbn [downlink_views]. rewrite map_size_empty.
  change (Z.of_nat 0 =? 0) with true. unfold when at 1.
  unfold manager_open. repeat run_step. cbn [manager_status].
  rewrite bool_decide_eq_true_2 by reflexivity.
  repeat run_step. tidy. cbn [downlink_model].
  rewrite Hconn.
  rewrite !bind_bind.
  erewrite bind_Ok by (apply model_open_Ok; reflexivity).
  tidy. rewrite !bind_bind.
  unfold _establish_downlink. cbn [model_connection model_kind model_node_uri model_lane_uri].
  fold (establishing view).
  erewrite bind_Ok; cycle 1.
  { eapply (send_message_open _ _ ws); [lookup_now | exact Hws | exact Hst | exact Hc]. }
  tidy. rewrite sent_more_set_subscribers.
  repeat run_step. tidy. repeat run_step. tidy.
  erewrite put_manager_Ok by lookup_now. tidy. reflexivity.
Qed.

(** X20. The first view of a host opens the connection and establishes
    the downlink.  A view is added for a host that the pool does not hold
    and the handshake succeeds: [_add_downlink_view] constructs the
    connection with the flags of the view, makes that one handshake, starts
    one receive loop, sends one frame, the [sync] or [link] of the lane,
    leaves the manager of the route [OPEN] with its model and this one
    view, and triggers [did_open] of the view once. *)
Theorem first_view_opens_and_establishes
    (w : World) (v : loc) (view : _DownlinkView) (rest : list bool) :
  views w !! v = Some view ->
  connections w !! _host_uri view = None ->
  handshakes w = true :: rest ->
  _add_downlink_view v w
  = Some (Ok tt,
          mkWorld
            (<[fresh (dom (heap w))
               := set_subscribers
                    (<[route view := open_manager (fresh (dom (heap w))) v view]> ∅)
                    (sent_more [establishing view]
                       (opened_connection
                          (_WSConnection_init (_host_uri view) (_scheme view)
                                              (_keep_linked view) (_keep_synced view))))]>
               (heap w))
            (<[v := did_open_once (with_connection (fresh (dom (heap w))) view)]> (views w))
            (<[_host_uri view := fresh (dom (heap w))]> (connections w))
            (reset (retry_strategy w)) rest (slept w)
            (receive_loops w ++ [fresh (dom (heap w))])).
Proof.
  intros Hv Hpool Hscript. unfold _add_downlink_view.
  rewrite (bind_Ok _ _ _ _ _ (get_view_Ok _ _ _ Hv)).
  erewrite bind_Ok; cycle 1.
  { unfold _get_connection. rewrite Hpool. reflexivity. }
  set (l := fresh (dom (heap w))).
  set (c := _WSConnection_init (_host_uri view) (_scheme view)
                               (_keep_linked view) (_keep_synced view)).
  unfold bind at 1. unfold put_view at 1. unfold _subscribe.
  erewrite bind_Ok; cycle 1.
  { apply get_conn_Ok. cbn [heap set_views]. apply lookup_insert_eq. }
  replace (subscribers c) with (∅ : gmap str _DownlinkManager) by reflexivity.
  rewrite map_size_empty.
  change (Z.of_nat 0 =? 0) with true. unfold when at 1.
  erewrite bind_Ok; cycle 1.
  { apply (open_first_handshake l c rest).
    - cbn [heap set_views]. apply lookup_insert_eq.
    - reflexivity.
    - exact Hscript. }
  cbn [heap views connections retry_strategy handshakes slept receive_loops set_views].
  rewrite insert_insert_eq.
  erewrite bind_Ok; cycle 1.
  { eapply (register_first_view _ l v (opened_connection c)).
    - lookup_now.
    - lookup_now.
    - reflexivity.
    - apply lookup_empty.
    - reflexivity.
    - discriminate.
    - reflexivity. }
  unfold _execute_did_open. erewrite bind_Ok by (apply get_view_Ok; lookup_now).
  unfold put_view, set_views. tidy. reflexivity.
Qed.

Lemma first_view_opens_and_establishes_witness :
  _add_downlink_view 0%nat
    (mkWorld ∅ (<[0%nat := view_b]> ∅) ∅ (IntervalStrategy_init (Some 2) 3) [true] [] [])
  = Some (Ok tt,
          mkWorld
            (<[0%nat
               := set_subscribers
                    (<[route view_b := open_manager 0%nat 0%nat view_b]> ∅)
                    (sent_more [SyncFrame (lit "/unit/foo") (lit "info")]
                       (opened_connection (_WSConnection_init host (lit "ws") true false)))]>
               ∅)
            (<[0%nat := did_open_once (with_connection 0%nat view_b)]>
               (<[0%nat := view_b]> ∅))
            (<[host := 0%nat]> ∅)
            (IntervalStrategy_init (Some 2) 3) [] [] [0%nat]).
Proof.
  rewrite (first_view_opens_and_establishes
             (mkWorld ∅ (<[0%nat := view_b]> ∅) ∅ (IntervalStrategy_init (Some 2) 3)
                      [true] [] [])
             0%nat view_b []).
  - vm_compute. reflexivity.
  - vm_compute. reflexivity.
  - vm_compute. reflexivity.
  - reflexivity.
Defined.

End FirstViewProperties.

(* ===================================================================== *)
(** * Opening and closing a view *)
(* ===================================================================== *)

Section ViewLifecycleProperties.

Import Downlinks ViewLifecycle.

Lemma set_is_open_back (view : ValueDownlinkView) :
  set_is_open (is_open view) view = view.
Proof. now destruct view. Qed.

Lemma set_is_open_twice (b b' : bool) (view : ValueDownlinkView) :
  set_is_open b (set_is_open b' view) = set_is_open b view.
Proof. reflexivity. Qed.

(** X21. Opening twice adds the view once.  With the client started,
    [open] returns the view and leaves it open; it submits
    [add_downlink_view] for the view when the view was not open, and
    nothing when it was; a second [open] changes nothing at all. *)
Theorem view_open_is_idempotent
    (Connection : Type)
    (before_started : Store Connection -> Outcome (option Future) * Store Connection)
    (st : Store Connection) (self : loc) (view : ValueDownlinkView) :
  view_objs st !! self = Some view ->
  has_started (client st) = true ->
  exists st1,
    open before_started self st = (Returns self, st1)
    /\ view_objs st1 = <[self := set_is_open true view]> (view_objs st)
    /\ scheduled (client st1)
       = scheduled (client st) ++ (if is_open view then [] else [add_downlink_view self])
    /\ open before_started self st1 = (Returns self, st1).
Proof.
  intros Hview Hstarted. unfold open at 1. rewrite Hview.
  destruct (is_open view) eqn:Hopen; cbn [negb].
  - exists st. split; [reflexivity|]. split; [|split].
    + rewrite <- Hopen, set_is_open_back. symmetry. now apply insert_id.
    + now rewrite app_nil_r.
    + unfold open. now rewrite Hview, Hopen.
  - unfold schedule_task, put_view. cbn [client]. rewrite Hstarted.
    eexists. split; [reflexivity|]. cbn [view_objs client scheduled].
    split; [reflexivity|]. split; [reflexivity|].
    unfold open. cbn [view_objs]. now rewrite lookup_insert_eq.
Qed.

Lemma view_open_is_idempotent_witness :
  exists st1,
    open refuse_before_started 0%nat example_store = (Returns 0%nat, st1)
    /\ scheduled (client st1) = [add_downlink_view 1%nat; add_downlink_view 0%nat]
    /\ open refuse_before_started 0%nat st1 = (Returns 0%nat, st1).
Proof.
  destruct (view_open_is_idempotent unit refuse_before_started example_store 0%nat
              (mkView (Some (lit "ws://localhost:9001")) (Some (lit "/unit/foo"))
                      (Some (lit "info")) None false false None None))
    as (st1 & Hopen & _ & Hscheduled & Hagain).
  - vm_compute. reflexivity.
  - reflexivity.
  - exists st1. split; [exact Hopen|]. split; [exact Hscheduled|exact Hagain].
Defined.

(** X22. Opening and closing again.  With the client started, [open] on
    a view that is not open followed by [close] leaves every view, model
    and connection of the store as before, the view not open, and has
    submitted [add_downlink_view] and then [remove_downlink_view] for the
    view, in that order. *)
Theorem view_open_then_close
    (Connection : Type)
    (before_started : Store Connection -> Outcome (option Future) * Store Connection)
    (st : Store Connection) (self : loc) (view : ValueDownlinkView) :
  view_objs st !! self = Some view ->
  is_open view = false ->
  has_started (client st) = true ->
  exists st1,
    open before_started self st = (Returns self, st1)
    /\ close before_started self st1
       = (Returns self,
          mkStore (mkClient true
                     (scheduled (client st)
                      ++ [add_downlink_view self; remove_downlink_view self]))
                  (view_objs st) (model_objs st) (connection_objs st)).
Proof.
  intros Hview Hopen Hstarted. unfold open. rewrite Hview, Hopen. cbn [negb].
  unfold schedule_task, put_view. cbn [client]. rewrite Hstarted.
  eexists. split; [reflexivity|].
  unfold close. cbn [view_objs]. rewrite lookup_insert_eq. cbn [is_open set_is_open].
  unfold schedule_task, put_view. cbn [client has_started scheduled view_objs
                                       model_objs connection_objs].
  rewrite insert_insert_eq, <- app_assoc. cbn [app].
  rewrite set_is_open_twice, <- Hopen, set_is_open_back, insert_id by exact Hview.
  reflexivity.
Qed.

Lemma view_open_then_close_witness :
  exists st1,
    open refuse_before_started 0%nat example_store = (Returns 0%nat, st1)
    /\ close refuse_before_started 0%nat st1
       = (Returns 0%nat,
          mkStore (mkClient true
                     [add_downlink_view 1%nat; add_downlink_view 0%nat;
                      remove_downlink_view 0%nat])
                  (view_objs example_store) (model_objs example_store)
                  (connection_objs example_store)).
Proof.
  apply (view_open_then_close unit refuse_before_started example_store 0%nat
           (mkView (Some (lit "ws://localhost:9001")) (Some (lit "/unit/foo"))
                   (Some (lit "info")) None false false None None)).
  - vm_compute. reflexivity.
  - reflexivity.
  - reflexivity.
Defined.

(** X23. Reading a view right after [open].  [open] marks the view open
    and only submits [add_downlink_view]; until that coroutine has run the
    view has no model.  A [get] made then, with either value of
    [wait_sync], does not raise [RuntimeError] and returns no value: it
    raises [AttributeError], the model being [None], and submits
    nothing. *)
Theorem get_right_after_open
    (Connection : Type)
    (before_started : Store Connection -> Outcome (option Future) * Store Connection)
    (st : Store Connection) (self : loc) (view : ValueDownlinkView) (wait_sync : bool) :
  view_objs st !! self = Some view ->
  is_open view = false ->
  model view = None ->
  has_started (client st) = true ->
  exists st1,
    open before_started self st = (Returns self, st1)
    /\ get before_started self wait_sync st1 = (Raises AttributeError, st1).
Proof.
  intros Hview Hopen Hmodel Hstarted. unfold open. rewrite Hview, Hopen. cbn [negb].
  unfold schedule_task, put_view. cbn [client]. rewrite Hstarted.
  eexists. split; [reflexivity|].
  unfold get. cbn [view_objs]. rewrite lookup_insert_eq.
  cbn [is_open set_is_open model]. rewrite Hmodel. now destruct wait_sync.
Qed.

Lemma get_right_after_open_witness :
  exists st1,
    open refuse_before_started 0%nat example_store = (Returns 0%nat, st1)
    /\ get refuse_before_started 0%nat false st1 = (Raises AttributeError, st1).
Proof.
  apply (get_right_after_open unit refuse_before_started example_store 0%nat
           (mkView (Some (lit "ws://localhost:9001")) (Some (lit "/unit/foo"))
                   (Some (lit "info")) None false false None None) false).
  - vm_compute. reflexivity.
  - reflexivity.
  - reflexivity.
  - reflexivity.
Defined.

End ViewLifecycleProperties.
